(** * EmmaKids: the /api/emma request handler (src/api/emma.js)

    The source holds two revisions of the same handler.  The first one
    (module [A] below) answers POST only and strips angle brackets in
    [stripEmojis]; the second one (module [B]) adds a GET health probe, caps
    the upstream diagnostics at 2000 code units and refuses an empty
    generation result.

    JavaScript strings are sequences of UTF-16 code units; they are modelled
    as lists of integers.  The regular expressions of [stripEmojis] carry the
    [u] flag and therefore walk the string code point by code point, a
    surrogate pair counting as one code point and an unpaired surrogate as a
    code point of its own. *)

From Stdlib Require Import String Ascii ZArith List Bool Lia.
Import ListNotations.
Local Open Scope Z_scope.

(** ** Strings as UTF-16 code units *)

Definition jsstring := list Z.

(** An ASCII literal as a JavaScript string. *)
Fixpoint str (s : string) : jsstring :=
  match s with
  | EmptyString => []
  | String a r => Z.of_N (N_of_ascii a) :: str r
  end.

Fixpoint jseqb (a b : jsstring) : bool :=
  match a, b with
  | [], [] => true
  | x :: a', y :: b' => (x =? y) && jseqb a' b'
  | _, _ => false
  end.

Definition is_lead (c : Z) : bool := (0xD800 <=? c) && (c <=? 0xDBFF).
Definition is_trail (c : Z) : bool := (0xDC00 <=? c) && (c <=? 0xDFFF).

(** A code unit that is a code point by itself in every context. *)
Definition is_bmp_scalar (c : Z) : bool :=
  ((0 <=? c) && (c <? 0xD800)) || ((0xE000 <=? c) && (c <=? 0xFFFF)).

(** UTF16SurrogatePairToCodePoint. *)
Definition pair_cp (h l : Z) : Z := (h - 0xD800) * 0x400 + (l - 0xDC00) + 0x10000.

(** Does the string start with a surrogate pair? *)
Definition starts_pair (s : jsstring) : bool :=
  match s with
  | h :: l :: _ => is_lead h && is_trail l
  | _ => false
  end.

(** The code points of a string, as CodePointAt reads them from left to
    right. *)
Fixpoint code_points (s : jsstring) : list Z :=
  match s with
  | [] => []
  | c :: t =>
      match t with
      | l :: t' =>
          if is_lead c && is_trail l then pair_cp c l :: code_points t'
          else c :: code_points t
      | [] => [c]
      end
  end.

(** String.prototype.isWellFormed: every code unit is a 16-bit value and no
    surrogate is unpaired. *)
Fixpoint isWellFormed (s : jsstring) : bool :=
  match s with
  | [] => true
  | c :: t =>
      if is_bmp_scalar c then isWellFormed t
      else
        match t with
        | l :: t' => is_lead c && is_trail l && isWellFormed t'
        | [] => false
        end
  end.

(** [s.replace(/[...]/gu, "")] for a character class [p] on code points: the
    match is tried at each code point in turn, a matching code point is
    dropped with all its code units, any other is kept, and the scan resumes
    after it (AdvanceStringIndex with fullUnicode). *)
Fixpoint replace_u (p : Z -> bool) (s : jsstring) : jsstring :=
  match s with
  | [] => []
  | c :: t =>
      match t with
      | l :: t' =>
          if is_lead c && is_trail l then
            if p (pair_cp c l) then replace_u p t' else c :: l :: replace_u p t'
          else
            if p c then replace_u p t else c :: replace_u p t
      | [] => if p c then [] else [c]
      end
  end.

(** The three character classes of [stripEmojis]. *)
Definition emoji_wide (cp : Z) : bool := (0x1F300 <=? cp) && (cp <=? 0x1FAFF).
Definition emoji_misc (cp : Z) : bool := (0x2600 <=? cp) && (cp <=? 0x27BF).
Definition variation_selector (cp : Z) : bool := cp =? 0xFE0F.

(** [/[<>]/g] has no [u] flag: it works on code units. *)
Definition angle_bracket (c : Z) : bool := (c =? 60) || (c =? 62).

Definition strip_angle (s : jsstring) : jsstring :=
  filter (fun c => negb (angle_bracket c)) s.

(** WhiteSpace and LineTerminator of ECMAScript: what [trim] removes and what
    [\s] matches. *)
Definition is_ws (c : Z) : bool :=
  ((9 <=? c) && (c <=? 13)) || (c =? 32) || (c =? 0xA0) || (c =? 0x1680)
  || ((0x2000 <=? c) && (c <=? 0x200A)) || (c =? 0x2028) || (c =? 0x2029)
  || (c =? 0x202F) || (c =? 0x205F) || (c =? 0x3000) || (c =? 0xFEFF).

Fixpoint trim_start (s : jsstring) : jsstring :=
  match s with
  | [] => []
  | c :: t => if is_ws c then trim_start t else s
  end.

Fixpoint trim_end (s : jsstring) : jsstring :=
  match s with
  | [] => []
  | c :: t =>
      match trim_end t with
      | [] => if is_ws c then [] else [c]
      | r => c :: r
      end
  end.

(** String.prototype.trim. *)
Definition trim (s : jsstring) : jsstring := trim_end (trim_start s).

Definition starts_ws (s : jsstring) : bool :=
  match s with
  | c :: _ => is_ws c
  | [] => false
  end.

(** [s.replace(/\s+/g, " ")]: every maximal run of white space becomes one
    space.  A white space unit followed by white space is dropped and the
    last one of the run is written as U+0020. *)
Fixpoint collapse_ws (s : jsstring) : jsstring :=
  match s with
  | [] => []
  | c :: t =>
      if is_ws c then
        if starts_ws t then collapse_ws t else 32 :: collapse_ws t
      else c :: collapse_ws t
  end.

(** [s.slice(0, n)]. *)
Definition slice_to (n : nat) (s : jsstring) : jsstring := firstn n s.

(** [a.slice(-n)] on an array or a string: the last [n] entries, all of them
    when there are fewer. *)
Definition slice_last {T : Type} (n : nat) (l : list T) : list T :=
  skipn (length l - n) l.

(** [wf_all Q s]: [s] has no unpaired surrogate and every one of its code
    points satisfies [Q]. *)
Inductive wf_all (Q : Z -> Prop) : jsstring -> Prop :=
| wf_nil : wf_all Q []
| wf_unit c t :
    is_bmp_scalar c = true -> Q c -> wf_all Q t -> wf_all Q (c :: t)
| wf_pair h l t :
    is_lead h = true -> is_trail l = true -> Q (pair_cp h l) ->
    wf_all Q t -> wf_all Q (h :: l :: t).

(** Every white space unit is a space that no white space follows: the
    strings [collapse_ws] leaves alone. *)
Fixpoint collapsed (s : jsstring) : bool :=
  match s with
  | [] => true
  | c :: t =>
      (if is_ws c then (c =? 32) && negb (starts_ws t) else true) && collapsed t
  end.

(** [Buffer.from(bytes).toString("base64")]: RFC 4648 with padding. *)
Definition b64_char (n : Z) : Z :=
  if n <? 26 then 65 + n
  else if n <? 52 then 97 + (n - 26)
  else if n <? 62 then 48 + (n - 52)
  else if n =? 62 then 43 else 47.

Fixpoint base64 (bs : list Z) : jsstring :=
  match bs with
  | [] => []
  | [a] =>
      [b64_char (Z.shiftr a 2); b64_char (Z.shiftl (Z.land a 3) 4); 61; 61]
  | [a; b] =>
      [b64_char (Z.shiftr a 2);
       b64_char (Z.lor (Z.shiftl (Z.land a 3) 4) (Z.shiftr b 4));
       b64_char (Z.shiftl (Z.land b 15) 2); 61]
  | a :: b :: c :: t =>
      b64_char (Z.shiftr a 2)
      :: b64_char (Z.lor (Z.shiftl (Z.land a 3) 4) (Z.shiftr b 4))
      :: b64_char (Z.lor (Z.shiftl (Z.land b 15) 2) (Z.shiftr c 6))
      :: b64_char (Z.land c 63) :: base64 t
  end.

(** ** JSON values, the runtime and the outbound calls *)

(** An exception object: [name] and [message] of an Error. *)
Record js_error := { err_name : jsstring; err_message : jsstring }.

(** [String(e?.message || e)]: the message, and for an empty message what
    Error.prototype.toString gives, the name. *)
Definition error_details (e : js_error) : jsstring :=
  match err_message e with
  | [] => err_name e
  | m => m
  end.

Definition TypeError (m : jsstring) : js_error :=
  {| err_name := str "TypeError"; err_message := m |}.

(** [process.env]: a variable is a string or undefined. *)
Record environment := {
  OPENAI_API_KEY : option jsstring;
  EMMA_TEXT_MODEL : option jsstring;
  EMMA_TTS_MODEL : option jsstring;
  EMMA_VOICE : option jsstring
}.

(** [v || d] on an environment variable: undefined and the empty string are
    falsy. *)
Definition or_default (v : option jsstring) (d : jsstring) : jsstring :=
  match v with
  | Some (c :: s) => c :: s
  | _ => d
  end.

Definition configured (v : option jsstring) : bool :=
  match v with
  | Some (_ :: _) => true
  | _ => false
  end.

(** The argument of a [fetch] call. *)
Record fetch_request := {
  url : jsstring;
  fetch_method : jsstring;
  headers : list (jsstring * jsstring);
  fetch_body : jsstring
}.

Definition responses_url : jsstring := str "https://api.openai.com/v1/responses".
Definition speech_url : jsstring := str "https://api.openai.com/v1/audio/speech".

Section Json.

Variable number : Type.

#[local] Set Warnings "-register-all".

(** A value produced by JSON.parse.  Numbers are IEEE doubles; the handler
    only passes them on, tests their truthiness or prints them, so their type
    is left to the runtime below. *)
Inductive json : Type :=
| JNull
| JBool (b : bool)
| JNum (n : number)
| JStr (s : jsstring)
| JArr (items : list json)
| JObj (fields : list (jsstring * json)).

(** What the handler takes from the JavaScript runtime without defining it:
    truthiness and printing of numbers, the literal [0.7], JSON.stringify. *)
Class Runtime := {
  number_truthy : number -> bool;
  number_ToString : number -> jsstring;
  temperature : number;
  JSON_stringify : json -> jsstring
}.

Context {rt : Runtime}.

Definition truthy (v : json) : bool :=
  match v with
  | JNull => false
  | JBool b => b
  | JNum n => number_truthy n
  | JStr [] => false
  | JStr (_ :: _) => true
  | JArr _ | JObj _ => true
  end.

Fixpoint join (sep : jsstring) (parts : list jsstring) : jsstring :=
  match parts with
  | [] => []
  | [p] => p
  | p :: rest => p ++ sep ++ join sep rest
  end.

Fixpoint assoc (k : jsstring) (fields : list (jsstring * json)) : option json :=
  match fields with
  | [] => None
  | (k', v) :: rest => if jseqb k k' then Some v else assoc k rest
  end.

(** [String(v)] and the conversion of a template literal (ToString, through
    ToPrimitive with hint string).  An object prints through
    Object.prototype.toString unless it has a [toString] key of its own: a
    value of JSON is never callable, [valueOf] then returns the object itself
    and the conversion throws (message as V8 words it).  An array prints its
    items joined by commas, null items as nothing, and fails where the first
    of its items fails. *)
Fixpoint ToString (v : json) : js_error + jsstring :=
  match v with
  | JNull => inr (str "null")
  | JBool true => inr (str "true")
  | JBool false => inr (str "false")
  | JNum n => inr (number_ToString n)
  | JStr s => inr s
  | JArr items =>
      match
        (fix parts (l : list json) : js_error + list jsstring :=
           match l with
           | [] => inr []
           | x :: rest =>
               match (match x with JNull => inr [] | _ => ToString x end) with
               | inl e => inl e
               | inr p =>
                   match parts rest with
                   | inl e => inl e
                   | inr ps => inr (p :: ps)
                   end
               end
           end) items
      with
      | inl e => inl e
      | inr ps => inr (join [44] ps)
      end
  | JObj fields =>
      match assoc (str "toString") fields with
      | Some _ => inl (TypeError (str "Cannot convert object to primitive value"))
      | None => inr (str "[object Object]")
      end
  end.

(** [v.k] for a key that no prototype defines ([None] is undefined) and a
    value [v] that is not null; the fields of an object have distinct keys. *)
Definition prop (v : json) (k : jsstring) : option json :=
  match v with
  | JObj fields => assoc k fields
  | _ => None
  end.

(** A destructuring default: it applies to undefined only. *)
Definition with_default (v : option json) (d : json) : json :=
  match v with
  | Some x => x
  | None => d
  end.

(** [v === s] for a string literal [s]. *)
Definition strict_eq_str (v : json) (s : jsstring) : bool :=
  match v with
  | JStr x => jseqb x s
  | _ => false
  end.

Definition field (k : string) (v : json) : jsstring * json := (str k, v).

(** The incoming request: [req.method] and [req.body] (undefined when the
    request has none). *)
Record request := { method : jsstring; body : option json }.

(** [req.body || {}]. *)
Definition body_or_empty (req : request) : json :=
  match body req with
  | Some v => if truthy v then v else JObj []
  | None => JObj []
  end.

(** [res.status(n).json(v)]. *)
Record http_response := { status : Z; payload : json }.

(** What the handler reads from a fetch Response: [ok], and the results of
    [text()], [json()] and [arrayBuffer()].  Each of the three reads the body
    and rejects when the body cannot be read; [json()] also rejects when the
    body is not JSON. *)
Record fetch_response := {
  ok : bool;
  text : js_error + jsstring;
  json_body : js_error + json;
  arrayBuffer : js_error + list Z
}.

Inductive fetch_result :=
| Rejected (e : js_error)
| Resolved (r : fetch_response).

(** The handler as a program over its only effect, [await fetch(...)], with
    exceptions. *)
Inductive Prog (T : Type) : Type :=
| Ret (a : T)
| Throw (e : js_error)
| Fetch (c : fetch_request) (k : fetch_result -> Prog T).

Arguments Ret {T} a.
Arguments Throw {T} e.
Arguments Fetch {T} c k.

Fixpoint bind {T U : Type} (p : Prog T) (f : T -> Prog U) : Prog U :=
  match p with
  | Ret a => f a
  | Throw e => Throw e
  | Fetch c k => Fetch c (fun r => bind (k r) f)
  end.

(** [try { p } catch (e) { h e }]. *)
Fixpoint try_catch {T : Type} (p : Prog T) (h : js_error -> Prog T) : Prog T :=
  match p with
  | Ret a => Ret a
  | Throw e => h e
  | Fetch c k => Fetch c (fun r => try_catch (k r) h)
  end.

(** [await fetch(c)]: a rejected promise throws. *)
Definition fetch (c : fetch_request) : Prog fetch_response :=
  Fetch c (fun r => match r with
                    | Rejected e => Throw e
                    | Resolved resp => Ret resp
                    end).

(** A computation that returns or throws. *)
Definition lift {T : Type} (x : js_error + T) : Prog T :=
  match x with
  | inl e => Throw e
  | inr a => Ret a
  end.

(** [await resp.json()], [await resp.text()], [await resp.arrayBuffer()]. *)
Definition await_json (resp : fetch_response) : Prog json :=
  lift (json_body resp).

Definition await_text (resp : fetch_response) : Prog jsstring :=
  lift (text resp).

Definition await_arrayBuffer (resp : fetch_response) : Prog (list Z) :=
  lift (arrayBuffer resp).

(** The outside world answers each outbound call. *)
Definition world := fetch_request -> fetch_result.

(** Running a program: the outbound calls made, in order, and the outcome. *)
Fixpoint run {T : Type} (p : Prog T) (w : world) : list fetch_request * (js_error + T) :=
  match p with
  | Ret a => ([], inr a)
  | Throw e => ([], inl e)
  | Fetch c k =>
      let (calls, out) := run (k (w c)) w in (c :: calls, out)
  end.

(** The headers and method both calls share. *)
Definition post_json (u apiKey body : jsstring) : fetch_request :=
  {| url := u;
     fetch_method := str "POST";
     headers := [(str "Authorization", str "Bearer " ++ apiKey);
                 (str "Content-Type", str "application/json")];
     fetch_body := body |}.

(** The body of the generation call. *)
Definition generation_body (model sys : jsstring) (user : json) : jsstring :=
  JSON_stringify
    (JObj [field "model" (JStr model);
           field "input"
             (JArr [JObj [field "role" (JStr (str "system"));
                          field "content" (JStr sys)];
                    JObj [field "role" (JStr (str "user"));
                          field "content" (JStr (JSON_stringify user))]]);
           field "temperature" (JNum temperature)]).

(** The body of the synthesis call. *)
Definition speech_body (model voice input : jsstring) : jsstring :=
  JSON_stringify
    (JObj [field "model" (JStr model);
           field "voice" (JStr voice);
           field "input" (JStr input);
           field "format" (JStr (str "mp3"))]).

(** [const { lang = "it-IT", age_band = "3-5", child_id = "bimbo",
    transcript = "", drawing_summary = {}, last_events = [] } = req.body || {}]:
    the six fields of the body [b], each with its default. *)
Definition lang_of (b : json) : json :=
  with_default (prop b (str "lang")) (JStr (str "it-IT")).
Definition age_band_of (b : json) : json :=
  with_default (prop b (str "age_band")) (JStr (str "3-5")).
Definition child_id_of (b : json) : json :=
  with_default (prop b (str "child_id")) (JStr (str "bimbo")).
Definition transcript_of (b : json) : json :=
  with_default (prop b (str "transcript")) (JStr []).
Definition drawing_summary_of (b : json) : json :=
  with_default (prop b (str "drawing_summary")) (JObj []).
Definition last_events_of (b : json) : json :=
  with_default (prop b (str "last_events")) (JArr []).

(** The object [user] of both revisions, given its [recent_events]. *)
Definition user (b recent : json) : json :=
  JObj [field "child_profile"
          (JObj [field "child_id" (child_id_of b);
                 field "age_band" (age_band_of b);
                 field "lang" (lang_of b)]);
        field "drawing_summary" (drawing_summary_of b);
        field "child_spoken_signal" (transcript_of b);
        field "recent_events" recent].

(** The final answers both revisions share. *)
Definition reply_ok (cleanText : jsstring) (audio : list Z) : http_response :=
  {| status := 200;
     payload :=
       JObj [field "text" (JStr cleanText);
             field "audio"
               (JObj [field "mime" (JStr (str "audio/mpeg"));
                      field "base64" (JStr (base64 audio))])] |}.

Definition reply_error (msg : string) : http_response :=
  {| status := 500; payload := JObj [field "error" (JStr (str msg))] |}.

Definition reply_details (msg : string) (details : jsstring) : http_response :=
  {| status := 500;
     payload := JObj [field "error" (JStr (str msg));
                      field "details" (JStr details)] |}.

Definition reply_tts_failed (details cleanText : jsstring) : http_response :=
  {| status := 500;
     payload := JObj [field "error" (JStr (str "TTS failed"));
                      field "details" (JStr details);
                      field "text" (JStr cleanText)] |}.

Definition reply_method_not_allowed : http_response :=
  {| status := 405;
     payload := JObj [field "error" (JStr (str "Method not allowed"))] |}.

(** The [catch] clause of both revisions. *)
Definition server_error (e : js_error) : Prog http_response :=
  Ret (reply_details "Server error" (error_details e)).

End Json.

Arguments JNull {number}.
Arguments JBool {number} b.
Arguments JNum {number} n.
Arguments JStr {number} s.
Arguments JArr {number} items.
Arguments JObj {number} fields.
Arguments Ret {number T} a.
Arguments Throw {number T} e.
Arguments Fetch {number T} c k.
Arguments Rejected {number} e.
Arguments Resolved {number} r.
Arguments bind {number T U} p f.
Arguments try_catch {number T} p h.
Arguments run {number T} p w.
Arguments fetch {number} c.
Arguments await_json {number} resp.
Arguments lift {number T} x.
Arguments await_text {number} resp.
Arguments await_arrayBuffer {number} resp.
Arguments number_truthy {number Runtime} n.
Arguments number_ToString {number Runtime} n.
Arguments temperature {number Runtime}.
Arguments JSON_stringify {number Runtime} v.
Arguments truthy {number rt} v.
Arguments ToString {number rt} v.
Arguments prop {number} v k.
Arguments assoc {number} k fields.
Arguments with_default {number} v d.
Arguments strict_eq_str {number} v s.
Arguments field {number} k v.
Arguments method {number} r.
Arguments body {number} r.
Arguments body_or_empty {number rt} req.
Arguments status {number} h.
Arguments payload {number} h.
Arguments ok {number} f.
Arguments text {number} f.
Arguments json_body {number} f.
Arguments arrayBuffer {number} f.
Arguments generation_body {number rt} model sys user.
Arguments speech_body {number rt} model voice input.
Arguments lang_of {number} b.
Arguments age_band_of {number} b.
Arguments child_id_of {number} b.
Arguments transcript_of {number} b.
Arguments drawing_summary_of {number} b.
Arguments last_events_of {number} b.
Arguments user {number} b recent.
Arguments world number : clear implicits.
Arguments reply_ok {number} cleanText audio.
Arguments reply_error {number} msg.
Arguments reply_details {number} msg details.
Arguments reply_tts_failed {number} details cleanText.
Arguments reply_method_not_allowed {number}.
Arguments server_error {number} e.

Notation "x <- p ;; q" := (bind p (fun x => q))
  (at level 61, p at next level, right associativity).

(** A line of a template literal, with its line feed. *)
Definition line (s : string) : jsstring := str s ++ [10].

(** ** First revision *)

Module A.

(** Emoji ranges, variation selector, angle brackets, trim. *)
Definition stripEmojis (s : jsstring) : jsstring :=
  trim (strip_angle
          (replace_u variation_selector
             (replace_u emoji_misc (replace_u emoji_wide s)))).

(** [stripEmojis(String(rawText || "").trim()).replace(/\s+/g, " ").trim()]
    as a function of the string [String(rawText || "")]. *)
Definition sanitize (s : jsstring) : jsstring :=
  trim (collapse_ws (stripEmojis (trim s))).

Section Handler.

Context {number : Type} {rt : Runtime number}.

Definition ageStyle (age_band : json number) : jsstring :=
  if strict_eq_str age_band (str "3-5")
  then str "very short sentences, simple words, 1 step at a time"
  else if strict_eq_str age_band (str "6-8")
  then str "short sentences, simple causal questions"
  else str "slightly richer language, still child-friendly, encourage hypothesis".

(** The template of [sys], its first hole filled with the text of the
    locale. *)
Definition sys_text (locale : jsstring) (age_band : json number) : jsstring :=
  [10]
  ++ line "You are EMMA, a gentle cognitive companion for children."
  ++ str "Language locale: " ++ locale ++ line "."
  ++ str "Style: " ++ ageStyle age_band ++ line "."
  ++ line "Rules:"
  ++ line "- Do NOT use emojis or emoticons."
  ++ line "- Do NOT quote or imitate the child's mispronounced words. Never repeat the transcript."
  ++ line "- Be warm, curious, and encouraging. No judgement."
  ++ line "- Ask at most ONE question."
  ++ str "- Focus on causal thinking: " ++ [34]
  ++ str "change one thing, see what happens" ++ [34] ++ line "."
  ++ line "- Keep it under 60 words.".

(** The template literal converts [locale] to a string, which can throw. *)
Definition sys (locale age_band : json number) : js_error + jsstring :=
  match ToString locale with
  | inl e => inl e
  | inr l => inr (sys_text l age_band)
  end.

(** [last_events.slice(-10)]: arrays and strings have a [slice]; on anything
    else the call throws (messages as V8 words them). *)
Definition recent_events (last_events : json number) : Prog number (json number) :=
  match last_events with
  | JArr items => Ret (JArr (slice_last 10 items))
  | JStr s => Ret (JStr (slice_last 10 s))
  | JNull => Throw (TypeError (str "Cannot read properties of null (reading 'slice')"))
  | _ => Throw (TypeError (str "last_events.slice is not a function"))
  end.

(** [textJson.output_text || (Array.isArray(textJson.output) ?
    JSON.stringify(textJson.output) : "")]; reading a property of null
    throws. *)
Definition rawText (textJson : json number) : Prog number (json number) :=
  match textJson with
  | JNull =>
      Throw (TypeError (str "Cannot read properties of null (reading 'output_text')"))
  | _ =>
      let fallback :=
        match prop textJson (str "output") with
        | Some (JArr items) => JStr (JSON_stringify (JArr items))
        | _ => JStr []
        end in
      match prop textJson (str "output_text") with
      | Some v => Ret (if truthy v then v else fallback)
      | None => Ret fallback
      end
  end.

(** [String(rawText || "")], sanitized; the conversion can throw. *)
Definition cleanText (raw : json number) : js_error + jsstring :=
  match (if truthy raw then ToString raw else inr []) with
  | inl e => inl e
  | inr s => inr (sanitize s)
  end.

(** The system instruction built for the body [b]. *)
Definition system_prompt (b : json number) : js_error + jsstring :=
  sys (lang_of b) (age_band_of b).

(** The generation call, given the text of [sys]. *)
Definition generation_request (env : environment) (sys_string : jsstring)
    (b : json number) (recent : json number) : fetch_request :=
  post_json responses_url (or_default (OPENAI_API_KEY env) [])
    (generation_body (or_default (EMMA_TEXT_MODEL env) (str "gpt-4o-mini"))
       sys_string (user b recent)).

Definition speech_request (env : environment) (input : jsstring) : fetch_request :=
  post_json speech_url (or_default (OPENAI_API_KEY env) [])
    (speech_body (or_default (EMMA_TTS_MODEL env) (str "gpt-4o-mini-tts"))
       (or_default (EMMA_VOICE env) (str "alloy")) input).

Definition handler (env : environment) (req : request number)
    : Prog number (http_response number) :=
  try_catch
    (if negb (jseqb (method req) (str "POST")) then Ret reply_method_not_allowed
     else
       let b := body_or_empty req in
       if negb (configured (OPENAI_API_KEY env))
       then Ret (reply_error "Missing OPENAI_API_KEY")
       else
         sys_string <- lift (system_prompt b) ;;
         recent <- recent_events (last_events_of b) ;;
         textResp <- fetch (generation_request env sys_string b recent) ;;
         if negb (ok textResp)
         then
           errText <- await_text textResp ;;
           Ret (reply_details "Text generation failed" errText)
         else
           textJson <- await_json textResp ;;
           raw <- rawText textJson ;;
           clean <- lift (cleanText raw) ;;
           ttsResp <- fetch (speech_request env clean) ;;
           if negb (ok ttsResp)
           then
             errText <- await_text ttsResp ;;
             Ret (reply_tts_failed errText clean)
           else
             audio <- await_arrayBuffer ttsResp ;;
             Ret (reply_ok clean audio))
    server_error.

End Handler.

End A.

(** ** Second revision *)

Module B.

Definition stripEmojis (s : jsstring) : jsstring :=
  trim (replace_u variation_selector
          (replace_u emoji_misc (replace_u emoji_wide s))).

Definition sanitize (s : jsstring) : jsstring :=
  trim (collapse_ws (stripEmojis (trim s))).

Section Handler.

Context {number : Type} {rt : Runtime number}.

Definition ageStyle (age_band : json number) : jsstring :=
  if strict_eq_str age_band (str "3-5")
  then str "very short sentences, simple words, one step at a time"
  else if strict_eq_str age_band (str "6-8")
  then str "short sentences, simple causal questions"
  else str "child-friendly language, encourage hypothesis gently".

(** The template of [sys], its first hole filled with the text of [lang],
    trimmed. *)
Definition sys_text (lang : jsstring) (age_band : json number) : jsstring :=
  trim
    ([10]
     ++ line "You are EMMA, a gentle cognitive companion for children."
     ++ str "Language locale: " ++ lang ++ line "."
     ++ str "Style: " ++ ageStyle age_band ++ line "."
     ++ line "Rules:"
     ++ line "- Do NOT use emojis or emoticons."
     ++ line "- Do NOT quote or imitate the child's mispronounced words. Never repeat the transcript."
     ++ line "- Be warm, curious, encouraging. No judgement."
     ++ line "- Ask at most ONE question."
     ++ line "- Focus on causal thinking: change one thing, see what happens."
     ++ line "- Keep it under 60 words.").

(** The template literal converts [lang] to a string, which can throw. *)
Definition sys (lang age_band : json number) : js_error + jsstring :=
  match ToString lang with
  | inl e => inl e
  | inr l => inr (sys_text l age_band)
  end.

(** [Array.isArray(last_events) ? last_events.slice(-10) : []]. *)
Definition recent_events (last_events : json number) : json number :=
  match last_events with
  | JArr items => JArr (slice_last 10 items)
  | _ => JArr []
  end.

(** [(textJson && textJson.output_text) ? textJson.output_text : ""]. *)
Definition rawText (textJson : json number) : json number :=
  if truthy textJson then
    match prop textJson (str "output_text") with
    | Some v => if truthy v then v else JStr []
    | None => JStr []
    end
  else JStr [].

(** [String(rawText || "")], sanitized; the conversion can throw. *)
Definition cleanText (raw : json number) : js_error + jsstring :=
  match (if truthy raw then ToString raw else inr []) with
  | inl e => inl e
  | inr s => inr (sanitize s)
  end.

(** The system instruction built for the body [b]. *)
Definition system_prompt (b : json number) : js_error + jsstring :=
  sys (lang_of b) (age_band_of b).

(** The generation call, given the text of [sys]. *)
Definition generation_request (env : environment) (sys_string : jsstring)
    (b : json number) (recent : json number) : fetch_request :=
  post_json responses_url (or_default (OPENAI_API_KEY env) [])
    (generation_body (or_default (EMMA_TEXT_MODEL env) (str "gpt-4o-mini"))
       sys_string (user b recent)).

Definition speech_request (env : environment) (input : jsstring) : fetch_request :=
  post_json speech_url (or_default (OPENAI_API_KEY env) [])
    (speech_body (or_default (EMMA_TTS_MODEL env) (str "gpt-4o-mini-tts"))
       (or_default (EMMA_VOICE env) (str "alloy")) input).

(** The answer of the health probe. *)
Definition reply_health (env : environment) : http_response number :=
  {| status := 200;
     payload :=
       JObj [field "ok" (JBool true);
             field "route" (JStr (str "/api/emma"));
             field "methods" (JArr [JStr (str "POST")]);
             field "hasOpenAIKey" (JBool (configured (OPENAI_API_KEY env)));
             field "textModel"
               (JStr (or_default (EMMA_TEXT_MODEL env) (str "gpt-4o-mini")));
             field "ttsModel"
               (JStr (or_default (EMMA_TTS_MODEL env) (str "gpt-4o-mini-tts")));
             field "voice" (JStr (or_default (EMMA_VOICE env) (str "alloy")))] |}.

Definition reply_missing_key : http_response number :=
  {| status := 500;
     payload :=
       JObj [field "error" (JStr (str "Missing OPENAI_API_KEY"));
             field "fix"
               (JStr (str "Set OPENAI_API_KEY in Vercel " ++ [0x2192]
                      ++ str " Project " ++ [0x2192]
                      ++ str " Settings " ++ [0x2192]
                      ++ str " Environment Variables (Production) and redeploy."))] |}.

Definition handler (env : environment) (req : request number)
    : Prog number (http_response number) :=
  try_catch
    (if jseqb (method req) (str "GET") then Ret (reply_health env)
     else if negb (jseqb (method req) (str "POST")) then Ret reply_method_not_allowed
     else if negb (configured (OPENAI_API_KEY env)) then Ret reply_missing_key
     else
       let b := body_or_empty req in
       sys_string <- lift (system_prompt b) ;;
       textResp <-
         fetch (generation_request env sys_string b
                  (recent_events (last_events_of b))) ;;
       if negb (ok textResp)
       then
         errText <- await_text textResp ;;
         Ret (reply_details "Text generation failed" (slice_to 2000 errText))
       else
         textJson <- await_json textResp ;;
         clean <- lift (cleanText (rawText textJson)) ;;
         match clean with
         | [] => Ret (reply_error "Empty AI text output")
         | _ =>
             ttsResp <- fetch (speech_request env clean) ;;
             if negb (ok ttsResp)
             then
               errText <- await_text ttsResp ;;
               Ret (reply_tts_failed (slice_to 2000 errText) clean)
             else
               audio <- await_arrayBuffer ttsResp ;;
               Ret (reply_ok clean audio)
         end)
    server_error.

End Handler.

End B.

(** ** A runtime and a world to run the examples on *)

(** A runtime whose numbers are carried as their JSON text, and a compact
    stringifier for values whose strings need no escape beyond the quote and
    the backslash. *)
Fixpoint mock_escape (s : jsstring) : jsstring :=
  match s with
  | [] => []
  | c :: t =>
      (if (c =? 34) || (c =? 92) then [92; c] else [c]) ++ mock_escape t
  end.

Definition mock_quote (s : jsstring) : jsstring := [34] ++ mock_escape s ++ [34].

Fixpoint mock_stringify (v : json jsstring) : jsstring :=
  match v with
  | JNull => str "null"
  | JBool true => str "true"
  | JBool false => str "false"
  | JNum n => n
  | JStr s => mock_quote s
  | JArr items => [91] ++ join [44] (map mock_stringify items) ++ [93]
  | JObj fields =>
      [123]
      ++ join [44]
           (map (fun kv => mock_quote (fst kv) ++ [58] ++ mock_stringify (snd kv))
              fields)
      ++ [125]
  end.

#[export] Instance mock_runtime : Runtime jsstring := {|
  number_truthy := fun n => negb (jseqb n (str "0"));
  number_ToString := fun n => n;
  temperature := str "0.7";
  JSON_stringify := mock_stringify
|}.

Definition mock_env : environment :=
  {| OPENAI_API_KEY := Some (str "sk-test");
     EMMA_TEXT_MODEL := None;
     EMMA_TTS_MODEL := None;
     EMMA_VOICE := None |}.

(** One canned answer per upstream service. *)
Definition mock_world {number : Type} (generation speech : fetch_result number)
    : world number :=
  fun c => if jseqb (url c) responses_url then generation else speech.

Definition canned {number : Type} (is_ok : bool) (body_text : jsstring)
    (body_json : json number) (bytes : list Z) : fetch_result number :=
  Resolved {| ok := is_ok; text := inr body_text; json_body := inr body_json;
              arrayBuffer := inr bytes |}.

Definition post {number : Type} (b : json number) : request number :=
  {| method := str "POST"; body := Some b |}.

(** The first end-to-end scenario of the specification: the request, and
    a generator that answers with a text holding U+1F600 while the
    synthesizer answers with the bytes 01 02. *)
Definition scenario_body : json jsstring :=
  JObj [field "lang" (JStr (str "it-IT"));
        field "age_band" (JStr (str "3-5"));
        field "transcript" (JStr (str "palla rossa"));
        field "drawing_summary" (JObj [field "color" (JStr (str "red"))]);
        field "last_events" (JArr [])].

Definition scenario_world : world jsstring :=
  mock_world
    (canned true []
       (JObj [field "output_text"
                (JStr (str "Che bella palla! " ++ [0xD83D; 0xDE00]
                       ++ str " Di che colore " ++ [0xE8; 63]))]) [])
    (canned true [] JNull [1; 2]).

Definition scenario_text : jsstring :=
  str "Che bella palla! Di che colore " ++ [0xE8; 63].

(** The system instructions of the scenario: locale it-IT, age band 3-5. *)
Definition scenario_sys_A : jsstring :=
  A.sys_text (str "it-IT") (@JStr jsstring (str "3-5")).

Definition scenario_sys_B : jsstring :=
  B.sys_text (str "it-IT") (@JStr jsstring (str "3-5")).

(** An answer whose body cannot be read. *)
Definition unreadable {number : Type} (is_ok : bool) (e : js_error)
    : fetch_result number :=
  Resolved {| ok := is_ok; text := inl e; json_body := inl e;
              arrayBuffer := inl e |}.

(** Twelve events, named 1 to 12. *)
Definition twelve_events : list (json jsstring) :=
  map (fun n => JNum (str n))
    ["1"; "2"; "3"; "4"; "5"; "6"; "7"; "8"; "9"; "10"; "11"; "12"]%string.

(** The value of a base64 character, and the decoding of a padded base64
    text: what a client does with [audio.base64]. *)
Definition b64_index (c : Z) : Z :=
  if (65 <=? c) && (c <=? 90) then c - 65
  else if (97 <=? c) && (c <=? 122) then c - 71
  else if (48 <=? c) && (c <=? 57) then c + 4
  else if c =? 43 then 62 else 63.

Fixpoint base64_decode (s : jsstring) : list Z :=
  match s with
  | c1 :: c2 :: c3 :: c4 :: t =>
      let a := Z.lor (Z.shiftl (b64_index c1) 2) (Z.shiftr (b64_index c2) 4) in
      let b := Z.lor (Z.shiftl (Z.land (b64_index c2) 15) 4)
                 (Z.shiftr (b64_index c3) 2) in
      let c := Z.lor (Z.shiftl (Z.land (b64_index c3) 3) 6) (b64_index c4) in
      if c3 =? 61 then [a]
      else if c4 =? 61 then [a; b]
      else a :: b :: c :: base64_decode t
  | _ => []
  end.

(** The 256 byte values. *)
Definition all_bytes : list Z := map Z.of_nat (seq 0 256).

(** * Properties *)

(** ** Code units and code points *)

#[local] Arguments is_ws : simpl never.
#[local] Arguments is_lead : simpl never.
#[local] Arguments is_trail : simpl never.
#[local] Arguments is_bmp_scalar : simpl never.
#[local] Arguments angle_bracket : simpl never.
#[local] Arguments pair_cp : simpl never.

Ltac zprop :=
  repeat rewrite ?andb_true_iff, ?orb_true_iff, ?andb_false_iff, ?orb_false_iff,
    ?negb_true_iff, ?negb_false_iff, ?Z.leb_le, ?Z.ltb_lt, ?Z.eqb_eq,
    ?Z.leb_gt, ?Z.ltb_ge, ?Z.eqb_neq in *.

Lemma bmp_not_lead c : is_bmp_scalar c = true -> is_lead c = false.
Proof. unfold is_bmp_scalar, is_lead. zprop. lia. Qed.

Lemma bmp_not_trail c : is_bmp_scalar c = true -> is_trail c = false.
Proof. unfold is_bmp_scalar, is_trail. zprop. lia. Qed.

Lemma lead_not_bmp c : is_lead c = true -> is_bmp_scalar c = false.
Proof. unfold is_bmp_scalar, is_lead. zprop. lia. Qed.

Lemma ws_bmp c : is_ws c = true -> is_bmp_scalar c = true.
Proof. unfold is_ws, is_bmp_scalar. zprop. lia. Qed.

Lemma lead_not_ws c : is_lead c = true -> is_ws c = false.
Proof.
  intros H. destruct (is_ws c) eqn:E; [|reflexivity].
  apply ws_bmp, bmp_not_lead in E. congruence.
Qed.

Lemma trail_not_ws c : is_trail c = true -> is_ws c = false.
Proof.
  intros H. destruct (is_ws c) eqn:E; [|reflexivity].
  apply ws_bmp, bmp_not_trail in E. congruence.
Qed.

Lemma pair_cp_astral h l :
  is_lead h = true -> is_trail l = true -> 0x10000 <= pair_cp h l <= 0x10FFFF.
Proof. unfold is_lead, is_trail, pair_cp. zprop. lia. Qed.

Lemma jsstring_ind2 (P : jsstring -> Prop) :
  P [] -> (forall c, P [c]) ->
  (forall c l t, P t -> P (l :: t) -> P (c :: l :: t)) ->
  forall s, P s.
Proof.
  intros H0 H1 H2.
  assert (G : forall s, P s /\ forall c, P (c :: s)).
  { induction s as [|l t [IH1 IH2]]; split; auto. }
  intros s. apply G.
Qed.

Lemma replace_u_unit p c t :
  is_lead c = false ->
  replace_u p (c :: t) = if p c then replace_u p t else c :: replace_u p t.
Proof.
  intros H. destruct t as [|l t']; simpl; rewrite ?H; simpl;
    destruct (p c); reflexivity.
Qed.

Lemma replace_u_pair p h l t :
  is_lead h = true -> is_trail l = true ->
  replace_u p (h :: l :: t)
  = if p (pair_cp h l) then replace_u p t else h :: l :: replace_u p t.
Proof. intros Hh Hl. simpl. rewrite Hh, Hl. reflexivity. Qed.

Lemma code_points_unit c t :
  is_lead c = false -> code_points (c :: t) = c :: code_points t.
Proof. intros H. destruct t as [|l t']; simpl; rewrite ?H; reflexivity. Qed.

Lemma code_points_pair h l t :
  is_lead h = true -> is_trail l = true ->
  code_points (h :: l :: t) = pair_cp h l :: code_points t.
Proof. intros Hh Hl. simpl. rewrite Hh, Hl. reflexivity. Qed.

(** [isWellFormed] decides [wf_all] for the trivial property. *)
Lemma isWellFormed_wf s : isWellFormed s = true -> wf_all (fun _ => True) s.
Proof.
  induction s as [| c | c l t IHt IHlt] using jsstring_ind2; intros H.
  - constructor.
  - simpl in H. destruct (is_bmp_scalar c) eqn:E; [|discriminate].
    constructor; auto. constructor.
  - change (isWellFormed (c :: l :: t))
      with (if is_bmp_scalar c then isWellFormed (l :: t)
            else is_lead c && is_trail l && isWellFormed t) in H.
    destruct (is_bmp_scalar c) eqn:E.
    + apply wf_unit; auto.
    + apply andb_true_iff in H as [H Ht]. apply andb_true_iff in H as [Hc Hl].
      apply wf_pair; auto.
Qed.

Lemma wf_all_impl (Q R : Z -> Prop) s :
  (forall c, Q c -> R c) -> wf_all Q s -> wf_all R s.
Proof.
  intros HQR H.
  induction H; [apply wf_nil | apply wf_unit | apply wf_pair]; auto.
Qed.

Lemma wf_all_code_points Q s : wf_all Q s -> Forall Q (code_points s).
Proof.
  induction 1.
  - constructor.
  - rewrite code_points_unit by (apply bmp_not_lead; assumption). constructor; auto.
  - rewrite code_points_pair by assumption. constructor; auto.
Qed.

(** ** The passes of the sanitizer on well-formed strings *)

Lemma wf_all_replace_u (Q : Z -> Prop) p s :
  wf_all Q s -> wf_all (fun c => Q c /\ p c = false) (replace_u p s).
Proof.
  induction 1.
  - apply wf_nil.
  - rewrite replace_u_unit by (apply bmp_not_lead; assumption).
    destruct (p c) eqn:E; [assumption | apply wf_unit; auto].
  - rewrite replace_u_pair by assumption.
    destruct (p (pair_cp h l)) eqn:E; [assumption | apply wf_pair; auto].
Qed.

Lemma replace_u_fix p s : wf_all (fun c => p c = false) s -> replace_u p s = s.
Proof.
  induction 1.
  - reflexivity.
  - rewrite replace_u_unit by (apply bmp_not_lead; assumption).
    rewrite H0, IHwf_all. reflexivity.
  - rewrite replace_u_pair by assumption. rewrite H1, IHwf_all. reflexivity.
Qed.

Lemma surrogate_not_angle c :
  is_lead c = true \/ is_trail c = true -> angle_bracket c = false.
Proof. unfold is_lead, is_trail, angle_bracket. zprop. lia. Qed.

Lemma astral_not_angle h l :
  is_lead h = true -> is_trail l = true -> angle_bracket (pair_cp h l) = false.
Proof.
  intros Hh Hl. pose proof (pair_cp_astral h l Hh Hl).
  unfold angle_bracket. zprop. lia.
Qed.

Lemma strip_angle_pair h l t :
  is_lead h = true -> is_trail l = true ->
  strip_angle (h :: l :: t) = h :: l :: strip_angle t.
Proof.
  intros Hh Hl. unfold strip_angle. simpl.
  rewrite (surrogate_not_angle h), (surrogate_not_angle l) by auto. reflexivity.
Qed.

Lemma wf_all_strip_angle (Q : Z -> Prop) s :
  wf_all Q s -> wf_all (fun c => Q c /\ angle_bracket c = false) (strip_angle s).
Proof.
  induction 1.
  - apply wf_nil.
  - unfold strip_angle. simpl. destruct (angle_bracket c) eqn:E; simpl.
    + assumption.
    + apply wf_unit; auto.
  - rewrite strip_angle_pair by assumption.
    apply wf_pair; auto using astral_not_angle.
Qed.

Lemma strip_angle_fix s :
  wf_all (fun c => angle_bracket c = false) s -> strip_angle s = s.
Proof.
  induction 1.
  - reflexivity.
  - unfold strip_angle in *. simpl. rewrite H0. simpl. congruence.
  - rewrite strip_angle_pair by assumption. congruence.
Qed.

Lemma wf_all_trim_start Q s : wf_all Q s -> wf_all Q (trim_start s).
Proof.
  induction 1.
  - apply wf_nil.
  - simpl. destruct (is_ws c); [assumption | apply wf_unit; assumption].
  - simpl. rewrite (lead_not_ws h) by assumption. apply wf_pair; assumption.
Qed.

Lemma trim_end_keep c t : is_ws c = false -> trim_end (c :: t) = c :: trim_end t.
Proof. intros H. simpl. destruct (trim_end t); rewrite ?H; reflexivity. Qed.

Lemma wf_all_trim_end Q s : wf_all Q s -> wf_all Q (trim_end s).
Proof.
  induction 1.
  - apply wf_nil.
  - simpl. destruct (trim_end t) as [|z r] eqn:E.
    + destruct (is_ws c); [apply wf_nil | apply wf_unit; auto using wf_nil].
    + apply wf_unit; assumption.
  - rewrite !trim_end_keep by auto using lead_not_ws, trail_not_ws.
    apply wf_pair; assumption.
Qed.

Lemma wf_all_trim Q s : wf_all Q s -> wf_all Q (trim s).
Proof. intros H. apply wf_all_trim_end, wf_all_trim_start, H. Qed.

Lemma collapse_ws_keep c t :
  is_ws c = false -> collapse_ws (c :: t) = c :: collapse_ws t.
Proof. intros H. simpl. rewrite H. reflexivity. Qed.

Lemma wf_all_collapse_ws (Q : Z -> Prop) s :
  Q 32 -> wf_all Q s -> wf_all Q (collapse_ws s).
Proof.
  intros Q32. induction 1.
  - apply wf_nil.
  - simpl. destruct (is_ws c).
    + destruct (starts_ws t); [assumption | apply wf_unit; auto].
    + apply wf_unit; assumption.
  - rewrite !collapse_ws_keep by auto using lead_not_ws, trail_not_ws.
    apply wf_pair; assumption.
Qed.

(** ** White space *)

Lemma collapse_ws_run c t :
  is_ws c = true -> collapse_ws (c :: t) = 32 :: collapse_ws (trim_start t).
Proof.
  intros Hc. revert c Hc. induction t as [|d t IH]; intros c Hc.
  - simpl. rewrite Hc. reflexivity.
  - change (collapse_ws (c :: d :: t))
      with (if is_ws c then if is_ws d then collapse_ws (d :: t)
                            else 32 :: collapse_ws (d :: t)
            else c :: collapse_ws (d :: t)).
    rewrite Hc. simpl trim_start. destruct (is_ws d) eqn:Hd.
    + apply IH, Hd.
    + reflexivity.
Qed.

Lemma starts_ws_trim_start s : starts_ws (trim_start s) = false.
Proof.
  induction s as [|c t IH]; simpl; [reflexivity|].
  destruct (is_ws c) eqn:E; [assumption | simpl; assumption].
Qed.

Lemma trim_start_fix s : starts_ws s = false -> trim_start s = s.
Proof. destruct s; simpl; intros H; rewrite ?H; reflexivity. Qed.

Lemma trim_end_idem s : trim_end (trim_end s) = trim_end s.
Proof.
  induction s as [|c t IH]; [reflexivity|].
  simpl. destruct (trim_end t) as [|z r] eqn:E.
  - destruct (is_ws c) eqn:W; simpl; rewrite ?W; reflexivity.
  - change (trim_end (c :: z :: r))
      with (match trim_end (z :: r) with
            | [] => if is_ws c then [] else [c]
            | x :: y => c :: x :: y
            end).
    rewrite IH. reflexivity.
Qed.

Lemma starts_ws_trim_end s : starts_ws s = false -> starts_ws (trim_end s) = false.
Proof.
  destruct s as [|c t]; simpl; intros H; [reflexivity|].
  destruct (trim_end t); rewrite ?H; simpl; assumption.
Qed.

Lemma trim_fix s : trim (trim s) = trim s.
Proof.
  unfold trim.
  rewrite (trim_start_fix (trim_end (trim_start s)))
    by apply starts_ws_trim_end, starts_ws_trim_start.
  apply trim_end_idem.
Qed.

Lemma starts_ws_collapse_ws s : starts_ws (collapse_ws s) = starts_ws s.
Proof.
  induction s as [|c t IH]; [reflexivity|].
  simpl. destruct (is_ws c) eqn:W.
  - destruct (starts_ws t) eqn:S; [congruence | reflexivity].
  - simpl. assumption.
Qed.

Lemma collapsed_collapse_ws s : collapsed (collapse_ws s) = true.
Proof.
  induction s as [|c t IH]; [reflexivity|].
  simpl. destruct (is_ws c) eqn:W.
  - destruct (starts_ws t) eqn:S; [assumption|].
    simpl. rewrite starts_ws_collapse_ws, S, IH. reflexivity.
  - simpl. rewrite W, IH. reflexivity.
Qed.

Lemma collapsed_fix s : collapsed s = true -> collapse_ws s = s.
Proof.
  induction s as [|c t IH]; [reflexivity|].
  simpl. intros H. apply andb_true_iff in H as [H Ht].
  destruct (is_ws c).
  - apply andb_true_iff in H as [Hc Hs]. apply Z.eqb_eq in Hc.
    apply negb_true_iff in Hs. rewrite Hs, IH by assumption. congruence.
  - rewrite IH by assumption. reflexivity.
Qed.

Lemma collapsed_trim_start s : collapsed s = true -> collapsed (trim_start s) = true.
Proof.
  induction s as [|c t IH]; [reflexivity|].
  intros H. simpl trim_start. destruct (is_ws c) eqn:W; [|assumption].
  apply IH. simpl in H. apply andb_true_iff in H. apply H.
Qed.

Lemma collapsed_trim_end s : collapsed s = true -> collapsed (trim_end s) = true.
Proof.
  induction s as [|c t IH]; [reflexivity|].
  intros H. simpl in H. apply andb_true_iff in H as [H Ht].
  simpl trim_end. destruct (trim_end t) as [|z r] eqn:E.
  - destruct (is_ws c) eqn:W; [reflexivity|]. simpl. rewrite W. reflexivity.
  - change (collapsed (c :: z :: r))
      with ((if is_ws c then (c =? 32) && negb (starts_ws (z :: r)) else true)
            && collapsed (z :: r)).
    rewrite IH by assumption. rewrite andb_true_r.
    destruct (is_ws c); [|reflexivity].
    apply andb_true_iff in H as [Hc Hs]. apply negb_true_iff in Hs.
    rewrite Hc, <- E, starts_ws_trim_end by assumption. reflexivity.
Qed.

Lemma collapsed_trim s : collapsed s = true -> collapsed (trim s) = true.
Proof. intros H. apply collapsed_trim_end, collapsed_trim_start, H. Qed.

(** ** What the sanitizer leaves on any string, paired surrogates or not *)

Lemma replace_u_keeps (R : Z -> Prop) p (s : jsstring) : Forall R s -> Forall R (replace_u p s).
Proof.
  induction s as [| c | c l t IHt IHlt] using jsstring_ind2; intros H.
  - constructor.
  - simpl. destruct (p c); [constructor | assumption].
  - inversion H as [|? ? Hc Hlt]; subst. inversion Hlt as [|? ? Hl Ht]; subst.
    change (replace_u p (c :: l :: t))
      with (if is_lead c && is_trail l
            then if p (pair_cp c l) then replace_u p t else c :: l :: replace_u p t
            else if p c then replace_u p (l :: t) else c :: replace_u p (l :: t)).
    destruct (is_lead c && is_trail l).
    + destruct (p (pair_cp c l)); auto.
    + destruct (p c); auto.
Qed.

Lemma replace_u_clears p (s : jsstring) :
  (forall c, is_lead c = true \/ is_trail c = true -> p c = false) ->
  Forall (fun c => p c = false) (replace_u p s).
Proof.
  intros Hp.
  induction s as [| c | c l t IHt IHlt] using jsstring_ind2.
  - constructor.
  - simpl. destruct (p c) eqn:E; repeat constructor. assumption.
  - change (replace_u p (c :: l :: t))
      with (if is_lead c && is_trail l
            then if p (pair_cp c l) then replace_u p t else c :: l :: replace_u p t
            else if p c then replace_u p (l :: t) else c :: replace_u p (l :: t)).
    destruct (is_lead c && is_trail l) eqn:E.
    + apply andb_true_iff in E as [Ec El].
      destruct (p (pair_cp c l)); auto.
    + destruct (p c) eqn:Epc; auto.
Qed.

Lemma filter_keeps (R : Z -> Prop) f (s : jsstring) : Forall R s -> Forall R (filter f s).
Proof.
  induction 1; simpl; [constructor|]. destruct (f x); auto.
Qed.

Lemma trim_start_keeps (R : Z -> Prop) s : Forall R s -> Forall R (trim_start s).
Proof.
  induction 1; simpl; [constructor|]. destruct (is_ws x); auto.
Qed.

Lemma trim_end_keeps (R : Z -> Prop) s : Forall R s -> Forall R (trim_end s).
Proof.
  induction 1; simpl; [constructor|].
  destruct (trim_end l); [destruct (is_ws x)|]; auto.
Qed.

Lemma trim_keeps (R : Z -> Prop) s : Forall R s -> Forall R (trim s).
Proof. intros H. apply trim_end_keeps, trim_start_keeps, H. Qed.

Lemma collapse_ws_keeps (R : Z -> Prop) s :
  R 32 -> Forall R s -> Forall R (collapse_ws s).
Proof.
  intros R32. induction 1; simpl; [constructor|].
  destruct (is_ws x); [destruct (starts_ws l)|]; auto.
Qed.

Lemma code_points_keeps (R : Z -> Prop) (s : jsstring) :
  (forall h l, is_lead h = true -> is_trail l = true -> R (pair_cp h l)) ->
  Forall R s -> Forall R (code_points s).
Proof.
  intros Hp.
  induction s as [| c | c l t IHt IHlt] using jsstring_ind2; intros H.
  - constructor.
  - assumption.
  - inversion H as [|? ? Hc Hlt]; subst. inversion Hlt as [|? ? Hl Ht]; subst.
    change (code_points (c :: l :: t))
      with (if is_lead c && is_trail l then pair_cp c l :: code_points t
            else c :: code_points (l :: t)).
    destruct (is_lead c && is_trail l) eqn:E; auto.
    apply andb_true_iff in E as [Ec El]. auto.
Qed.

Lemma surrogate_not_misc c :
  is_lead c = true \/ is_trail c = true -> emoji_misc c = false.
Proof. unfold is_lead, is_trail, emoji_misc. zprop. lia. Qed.

Lemma surrogate_not_selector c :
  is_lead c = true \/ is_trail c = true -> variation_selector c = false.
Proof. unfold is_lead, is_trail, variation_selector. zprop. lia. Qed.

Lemma astral_not_bmp_class h l :
  is_lead h = true -> is_trail l = true ->
  emoji_misc (pair_cp h l) = false /\ variation_selector (pair_cp h l) = false.
Proof.
  intros Hh Hl. pose proof (pair_cp_astral h l Hh Hl).
  unfold emoji_misc, variation_selector. zprop. lia.
Qed.

(** After the second and third replacement no code unit of the two classes
    of the Basic Multilingual Plane is left. *)
Lemma bmp_classes_cleared s :
  Forall (fun c => emoji_misc c = false /\ variation_selector c = false)
    (replace_u variation_selector (replace_u emoji_misc s)).
Proof.
  apply Forall_and.
  - apply replace_u_keeps, replace_u_clears, surrogate_not_misc.
  - apply replace_u_clears, surrogate_not_selector.
Qed.

Lemma sanitize_bmp_classes s :
  let R := fun c => emoji_misc c = false /\ variation_selector c = false in
  Forall R (code_points (A.sanitize s)) /\ Forall R (code_points (B.sanitize s)).
Proof.
  intros R.
  assert (R32 : R 32) by (split; reflexivity).
  split; apply code_points_keeps; try apply astral_not_bmp_class;
    unfold A.sanitize, A.stripEmojis, B.sanitize, B.stripEmojis;
    apply trim_keeps, collapse_ws_keeps, trim_keeps; auto.
  - apply filter_keeps, bmp_classes_cleared.
  - apply bmp_classes_cleared.
Qed.

(** ** The sanitized form of a well-formed string *)

Lemma sanitize_shape_A s :
  isWellFormed s = true ->
  wf_all (fun c => ((emoji_wide c = false /\ emoji_misc c = false)
                    /\ variation_selector c = false) /\ angle_bracket c = false)
    (A.sanitize s)
  /\ collapsed (A.sanitize s) = true.
Proof.
  intros H. apply isWellFormed_wf in H. split.
  - unfold A.sanitize, A.stripEmojis.
    apply wf_all_trim, wf_all_collapse_ws; [repeat split; reflexivity|].
    apply wf_all_trim, wf_all_strip_angle.
    apply wf_all_replace_u, wf_all_replace_u.
    eapply wf_all_impl; [|apply wf_all_replace_u, wf_all_trim, H].
    simpl. tauto.
  - apply collapsed_trim, collapsed_collapse_ws.
Qed.

Lemma sanitize_shape_B s :
  isWellFormed s = true ->
  wf_all (fun c => (emoji_wide c = false /\ emoji_misc c = false)
                   /\ variation_selector c = false)
    (B.sanitize s)
  /\ collapsed (B.sanitize s) = true.
Proof.
  intros H. apply isWellFormed_wf in H. split.
  - unfold B.sanitize, B.stripEmojis.
    apply wf_all_trim, wf_all_collapse_ws; [repeat split; reflexivity|].
    apply wf_all_trim.
    apply wf_all_replace_u, wf_all_replace_u.
    eapply wf_all_impl; [|apply wf_all_replace_u, wf_all_trim, H].
    simpl. tauto.
  - apply collapsed_trim, collapsed_collapse_ws.
Qed.

Lemma sanitize_trimmed_A s : trim (A.sanitize s) = A.sanitize s.
Proof. apply trim_fix. Qed.

Lemma sanitize_trimmed_B s : trim (B.sanitize s) = B.sanitize s.
Proof. apply trim_fix. Qed.

(** X20.  On a string without unpaired surrogates the sanitization of either
    revision is idempotent: sanitizing the sanitized text gives it back
    unchanged. *)
Theorem sanitize_idempotent_well_formed (s : jsstring) :
  isWellFormed s = true ->
  A.sanitize (A.sanitize s) = A.sanitize s
  /\ B.sanitize (B.sanitize s) = B.sanitize s.
Proof.
  intros H. split.
  - destruct (sanitize_shape_A s H) as [Hwf Hc].
    unfold A.sanitize at 1. unfold A.stripEmojis.
    rewrite sanitize_trimmed_A.
    rewrite (replace_u_fix emoji_wide)
      by (eapply wf_all_impl; [|exact Hwf]; simpl; tauto).
    rewrite (replace_u_fix emoji_misc)
      by (eapply wf_all_impl; [|exact Hwf]; simpl; tauto).
    rewrite (replace_u_fix variation_selector)
      by (eapply wf_all_impl; [|exact Hwf]; simpl; tauto).
    rewrite strip_angle_fix
      by (eapply wf_all_impl; [|exact Hwf]; simpl; tauto).
    rewrite sanitize_trimmed_A, (collapsed_fix _ Hc).
    apply sanitize_trimmed_A.
  - destruct (sanitize_shape_B s H) as [Hwf Hc].
    unfold B.sanitize at 1. unfold B.stripEmojis.
    rewrite sanitize_trimmed_B.
    rewrite (replace_u_fix emoji_wide)
      by (eapply wf_all_impl; [|exact Hwf]; simpl; tauto).
    rewrite (replace_u_fix emoji_misc)
      by (eapply wf_all_impl; [|exact Hwf]; simpl; tauto).
    rewrite (replace_u_fix variation_selector)
      by (eapply wf_all_impl; [|exact Hwf]; simpl; tauto).
    rewrite sanitize_trimmed_B, (collapsed_fix _ Hc).
    apply sanitize_trimmed_B.
Qed.

(** C3.  The sanitizer is not idempotent on the text U+D83D U+2600 U+DE00:
    the lone surrogates around the sun U+2600 are kept by the first pass and
    joined by the second into the face U+1F600, which the passes are meant to
    remove; the sanitized text is that emoji, and sanitizing it once more
    gives the empty text. *)
Lemma sanitize_not_idempotent_unpaired :
  A.sanitize [0xD83D; 0x2600; 0xDE00] = [0xD83D; 0xDE00]
  /\ A.sanitize (A.sanitize [0xD83D; 0x2600; 0xDE00]) = []
  /\ A.sanitize (A.sanitize [0xD83D; 0x2600; 0xDE00]) <> A.sanitize [0xD83D; 0x2600; 0xDE00]
  /\ B.sanitize [0xD83D; 0x2600; 0xDE00] = [0xD83D; 0xDE00]
  /\ B.sanitize (B.sanitize [0xD83D; 0x2600; 0xDE00]) = []
  /\ B.sanitize (B.sanitize [0xD83D; 0x2600; 0xDE00]) <> B.sanitize [0xD83D; 0x2600; 0xDE00].
Proof. repeat split; vm_compute; try reflexivity; discriminate. Qed.

Lemma sanitize_idempotent_witness :
  isWellFormed (str "  ciao <3 " ++ [0xD83D; 0xDE00; 0x2600; 0xFE0F; 9; 10] ++ str "mondo ") = true
  /\ A.sanitize (A.sanitize (str "  ciao <3 " ++ [0xD83D; 0xDE00; 0x2600; 0xFE0F; 9; 10] ++ str "mondo "))
     = A.sanitize (str "  ciao <3 " ++ [0xD83D; 0xDE00; 0x2600; 0xFE0F; 9; 10] ++ str "mondo ")
  /\ B.sanitize (B.sanitize (str "  ciao <3 " ++ [0xD83D; 0xDE00; 0x2600; 0xFE0F; 9; 10] ++ str "mondo "))
     = B.sanitize (str "  ciao <3 " ++ [0xD83D; 0xDE00; 0x2600; 0xFE0F; 9; 10] ++ str "mondo ").
Proof.
  split; [reflexivity|].
  apply (sanitize_idempotent_well_formed
           (str "  ciao <3 " ++ [0xD83D; 0xDE00; 0x2600; 0xFE0F; 9; 10] ++ str "mondo ")).
  reflexivity.
Defined.

(** X21.  For every input string the sanitized text of either revision holds
    no code point of U+2600..U+27BF and no U+FE0F; for every input string
    without unpaired surrogates it holds no code point of U+1F300..U+1FAFF
    either. *)
Theorem sanitize_strips_pictographs (s : jsstring) :
  (Forall (fun cp => emoji_misc cp = false /\ variation_selector cp = false)
     (code_points (A.sanitize s))
   /\ Forall (fun cp => emoji_misc cp = false /\ variation_selector cp = false)
        (code_points (B.sanitize s)))
  /\ (isWellFormed s = true ->
      Forall (fun cp => emoji_wide cp = false) (code_points (A.sanitize s))
      /\ Forall (fun cp => emoji_wide cp = false) (code_points (B.sanitize s))).
Proof.
  split; [apply sanitize_bmp_classes|].
  intros H. split; apply wf_all_code_points.
  - eapply wf_all_impl; [|apply (sanitize_shape_A s H)]. simpl. tauto.
  - eapply wf_all_impl; [|apply (sanitize_shape_B s H)]. simpl. tauto.
Qed.

(** C4.  The sanitized text of U+D83D U+2600 U+DE00 holds a code point of
    the range U+1F300..U+1FAFF: removing U+2600 in the second pass joins the
    two lone surrogates into the pair of U+1F600, after the pass that strips
    that range has run. *)
Lemma sanitize_joins_unpaired_surrogates :
  code_points (A.sanitize [0xD83D; 0x2600; 0xDE00]) = [0x1F600]
  /\ code_points (B.sanitize [0xD83D; 0x2600; 0xDE00]) = [0x1F600]
  /\ emoji_wide 0x1F600 = true
  /\ ~ Forall (fun cp => emoji_wide cp = false)
         (code_points (B.sanitize [0xD83D; 0x2600; 0xDE00])).
Proof.
  repeat split; try (vm_compute; reflexivity).
  intros H. vm_compute in H. inversion H as [|? ? E _]. discriminate E.
Qed.

Lemma sanitize_strips_pictographs_witness :
  isWellFormed ([0x2600; 0xFE0F; 0xD83D; 0xDE00] ++ str " sole") = true
  /\ Forall (fun cp => emoji_wide cp = false)
       (code_points (A.sanitize ([0x2600; 0xFE0F; 0xD83D; 0xDE00] ++ str " sole")))
  /\ Forall (fun cp => emoji_wide cp = false)
       (code_points (B.sanitize ([0x2600; 0xFE0F; 0xD83D; 0xDE00] ++ str " sole"))).
Proof.
  split; [reflexivity|].
  apply (proj2 (sanitize_strips_pictographs
                  ([0x2600; 0xFE0F; 0xD83D; 0xDE00] ++ str " sole"))).
  reflexivity.
Defined.

(** A text that is white space only is sanitized to the empty string. *)
Lemma trim_start_blank s : forallb is_ws s = true -> trim_start s = [].
Proof.
  induction s as [|c t IH]; simpl; [reflexivity|].
  intros H. apply andb_true_iff in H as [Hc Ht]. rewrite Hc. auto.
Qed.

Lemma sanitize_blank s :
  forallb is_ws s = true -> A.sanitize s = [] /\ B.sanitize s = [].
Proof.
  intros H.
  assert (E : trim s = []) by (unfold trim; rewrite (trim_start_blank s H); reflexivity).
  unfold A.sanitize, B.sanitize. rewrite E. split; reflexivity.
Qed.

(** ** The handler *)

Lemma jseqb_eq a b : jseqb a b = true <-> a = b.
Proof.
  revert b. induction a as [|x a IH]; destruct b as [|y b]; simpl;
    try (split; [discriminate | discriminate]); [tauto|].
  rewrite andb_true_iff, Z.eqb_eq, IH. split.
  - intros [-> ->]. reflexivity.
  - intros E. inversion E. auto.
Qed.

Lemma jseqb_refl a : jseqb a a = true.
Proof. apply jseqb_eq. reflexivity. Qed.

Lemma jseqb_neq a b : a <> b -> jseqb a b = false.
Proof.
  intros H. destruct (jseqb a b) eqn:E; [|reflexivity].
  apply jseqb_eq in E. contradiction.
Qed.

Lemma slice_to_length n s : (length (slice_to n s) <= n)%nat.
Proof. unfold slice_to. rewrite length_firstn. lia. Qed.

Lemma slice_to_prefix n s : exists rest, s = slice_to n s ++ rest.
Proof. exists (skipn n s). unfold slice_to. symmetry. apply firstn_skipn. Qed.

Lemma slice_last_short {T : Type} n (l : list T) :
  (length l <= n)%nat -> slice_last n l = l.
Proof.
  intros H. unfold slice_last. replace (length l - n)%nat with 0%nat by lia.
  reflexivity.
Qed.

Lemma slice_last_long {T : Type} n (l : list T) :
  (n < length l)%nat ->
  length (slice_last n l) = n
  /\ exists dropped, l = dropped ++ slice_last n l.
Proof.
  intros H. unfold slice_last. split.
  - rewrite length_skipn. lia.
  - exists (firstn (length l - n) l). symmetry. apply firstn_skipn.
Qed.

#[local] Arguments str : simpl never.
#[local] Arguments base64 : simpl never.
#[local] Arguments slice_to : simpl never.

Section HandlerProperties.

Context {number : Type} {rt : Runtime number}.

#[local] Arguments A.cleanText : simpl never.
#[local] Arguments B.cleanText : simpl never.
#[local] Arguments A.system_prompt : simpl never.
#[local] Arguments B.system_prompt : simpl never.
#[local] Arguments A.generation_request : simpl never.
#[local] Arguments B.generation_request : simpl never.
#[local] Arguments A.speech_request : simpl never.
#[local] Arguments B.speech_request : simpl never.
#[local] Arguments A.rawText : simpl never.
#[local] Arguments B.rawText : simpl never.
#[local] Arguments A.recent_events : simpl never.
#[local] Arguments B.recent_events : simpl never.
#[local] Arguments reply_ok : simpl never.
#[local] Arguments reply_error : simpl never.
#[local] Arguments reply_details : simpl never.
#[local] Arguments reply_tts_failed : simpl never.
#[local] Arguments reply_method_not_allowed : simpl never.
#[local] Arguments B.reply_missing_key : simpl never.
#[local] Arguments B.reply_health : simpl never.
#[local] Arguments body_or_empty : simpl never.
#[local] Arguments last_events_of : simpl never.

Lemma urls_differ : responses_url <> speech_url.
Proof. vm_compute. discriminate. Qed.

Lemma recent_events_cases_A (v : json number) :
  (exists e, A.recent_events v = Throw e) \/ (exists r, A.recent_events v = Ret r).
Proof. unfold A.recent_events. destruct v; eauto. Qed.

Lemma rawText_cases_A (v : json number) :
  (exists e, A.rawText v = Throw e) \/ (exists r, A.rawText v = Ret r).
Proof.
  unfold A.rawText. destruct v; eauto;
    match goal with
    | |- context [match ?x with Some _ => _ | None => _ end] => destruct x
    end; eauto.
Qed.

(** Case analysis along the handler: one case per branch, per conversion or
    body read that can throw, and per answer of the world. *)
Ltac run_cases w :=
  unfold await_json, await_text, await_arrayBuffer, lift;
  repeat
    (simpl;
     match goal with
     | |- context [match w ?c with _ => _ end] => destruct (w c) eqn:?
     | |- context [negb (ok ?r)] => destruct (ok r) eqn:?
     | |- context [A.rawText ?v] =>
         let E := fresh "E" in
         destruct (rawText_cases_A v) as [[? E]|[? E]]; rewrite E
     | |- context [A.recent_events ?v] =>
         let E := fresh "E" in
         destruct (recent_events_cases_A v) as [[? E]|[? E]]; rewrite E
     | |- context [match ?x with inl _ => _ | inr _ => _ end] =>
         destruct x eqn:?
     | |- context [match ?l with nil => _ | cons _ _ => _ end] =>
         is_var l; destruct l
     | |- context [negb (configured ?k)] => destruct (configured k) eqn:?
     | |- context [jseqb (method ?r) ?m] => destruct (jseqb (method r) m) eqn:?
     end);
  simpl.

(** Every request gets exactly one answer, after at most two outbound
    calls: no exception leaves the handler and no call is repeated. *)
Lemma handler_always_answers (env : environment) (req : request number)
    (w : world number) :
  (exists calls resp,
     run (A.handler env req) w = (calls, inr resp) /\ (length calls <= 2)%nat)
  /\ (exists calls resp,
        run (B.handler env req) w = (calls, inr resp) /\ (length calls <= 2)%nat).
Proof.
  split.
  - unfold A.handler. run_cases w; do 2 eexists; (split; [reflexivity | simpl; lia]).
  - unfold B.handler. run_cases w; do 2 eexists; (split; [reflexivity | simpl; lia]).
Qed.

(** C8.  A request whose method is not POST, and in the revision with the
    health probe not GET either, is answered with status 405 and a JSON body
    with an [error] field, and no outbound call is made. *)
Theorem other_methods_rejected (env : environment) (req : request number)
    (w : world number) :
  method req <> str "POST" ->
  run (A.handler env req) w = ([], inr reply_method_not_allowed)
  /\ (method req <> str "GET" ->
      run (B.handler env req) w = ([], inr reply_method_not_allowed))
  /\ status (@reply_method_not_allowed number) = 405
  /\ prop (@payload number reply_method_not_allowed) (str "error")
     = Some (JStr (str "Method not allowed")).
Proof.
  intros HP. apply jseqb_neq in HP. repeat split.
  - unfold A.handler. rewrite HP. reflexivity.
  - intros HG. apply jseqb_neq in HG. unfold B.handler. rewrite HG, HP. reflexivity.
Qed.

(** C7.  A POST request handled while no API credential is configured (the
    variable is unset or empty) is answered with the status 500
    configuration error, and no outbound call is made. *)
Theorem missing_credential_fails_fast (env : environment) (req : request number)
    (w : world number) :
  method req = str "POST" ->
  configured (OPENAI_API_KEY env) = false ->
  (run (A.handler env req) w = ([], inr (reply_error "Missing OPENAI_API_KEY"))
   /\ run (B.handler env req) w = ([], inr B.reply_missing_key))
  /\ (status (@reply_error number "Missing OPENAI_API_KEY") = 500
      /\ prop (@payload number (reply_error "Missing OPENAI_API_KEY")) (str "error")
         = Some (JStr (str "Missing OPENAI_API_KEY")))
  /\ (status (@B.reply_missing_key number) = 500
      /\ prop (@payload number B.reply_missing_key) (str "error")
         = Some (JStr (str "Missing OPENAI_API_KEY"))).
Proof.
  intros HM HK. repeat split.
  - unfold A.handler. rewrite HM, jseqb_refl, HK. reflexivity.
  - unfold B.handler. rewrite HM, jseqb_refl, HK. reflexivity.
Qed.

(** The second revision refuses an empty sanitized text before any
    synthesis call. *)
Lemma empty_generation_refused_B (env : environment) (req : request number)
    (w : world number) (sys_string : jsstring) (r : fetch_response number)
    (textJson : json number) :
  method req = str "POST" ->
  configured (OPENAI_API_KEY env) = true ->
  B.system_prompt (body_or_empty req) = inr sys_string ->
  w (B.generation_request env sys_string (body_or_empty req)
       (B.recent_events (last_events_of (body_or_empty req)))) = Resolved r ->
  ok r = true ->
  json_body r = inr textJson ->
  B.cleanText (B.rawText textJson) = inr [] ->
  run (B.handler env req) w
  = ([B.generation_request env sys_string (body_or_empty req)
        (B.recent_events (last_events_of (body_or_empty req)))],
     inr (reply_error "Empty AI text output")).
Proof.
  intros HM HK HS Hw Hok Hj Hc. unfold B.handler, await_json, lift.
  rewrite HM, jseqb_refl, HK. simpl. rewrite HS. simpl. rewrite Hw. simpl.
  rewrite Hok. simpl. rewrite Hj. simpl. rewrite Hc. reflexivity.
Qed.

(** A raw text of white space only counts as empty. *)
Lemma blank_text_is_empty_B (s : jsstring) :
  forallb is_ws s = true -> B.cleanText (@JStr number s) = inr [].
Proof.
  intros H. unfold B.cleanText. simpl.
  destruct s; [reflexivity|]. simpl. f_equal. apply sanitize_blank, H.
Qed.

(** C1.  The first revision has no test on the sanitized text: a generation
    result of three spaces is sanitized to the empty string, which is sent to
    the synthesis service, and the answer is the status 200 reply with an
    empty [text]. *)
Theorem empty_generation_still_synthesized_A :
  run (A.handler mock_env (post (JObj [])))
    (mock_world (canned true [] (JObj [field "output_text" (JStr (str "   "))]) [])
                (canned true [] (@JNull number) [1; 2]))
  = ([A.generation_request mock_env
        (A.sys_text (str "it-IT") (@JStr number (str "3-5"))) (JObj []) (JArr []);
      A.speech_request mock_env []],
     inr (reply_ok [] [1; 2])).
Proof. reflexivity. Qed.

(** The second revision caps the diagnostic at 2000 code units and makes the
    generation call once. *)
Lemma generation_failure_capped_B (env : environment) (req : request number)
    (w : world number) (sys_string : jsstring) (r : fetch_response number)
    (errText : jsstring) :
  method req = str "POST" ->
  configured (OPENAI_API_KEY env) = true ->
  B.system_prompt (body_or_empty req) = inr sys_string ->
  w (B.generation_request env sys_string (body_or_empty req)
       (B.recent_events (last_events_of (body_or_empty req)))) = Resolved r ->
  ok r = false ->
  text r = inr errText ->
  run (B.handler env req) w
  = ([B.generation_request env sys_string (body_or_empty req)
        (B.recent_events (last_events_of (body_or_empty req)))],
     inr (reply_details "Text generation failed" (slice_to 2000 errText)))
  /\ (length (slice_to 2000 errText) <= 2000)%nat
  /\ exists rest, errText = slice_to 2000 errText ++ rest.
Proof.
  intros HM HK HS Hw Hok Ht. split; [|split].
  - unfold B.handler, await_text, lift. rewrite HM, jseqb_refl, HK. simpl.
    rewrite HS. simpl. rewrite Hw. simpl. rewrite Hok. simpl. rewrite Ht.
    reflexivity.
  - apply slice_to_length.
  - apply slice_to_prefix.
Qed.

(** The first revision passes the upstream body on as it is. *)
Lemma generation_failure_uncapped_A (env : environment) (req : request number)
    (w : world number) (sys_string : jsstring) (recent : json number)
    (r : fetch_response number) (errText : jsstring) :
  method req = str "POST" ->
  configured (OPENAI_API_KEY env) = true ->
  A.system_prompt (body_or_empty req) = inr sys_string ->
  A.recent_events (last_events_of (body_or_empty req)) = Ret recent ->
  w (A.generation_request env sys_string (body_or_empty req) recent) = Resolved r ->
  ok r = false ->
  text r = inr errText ->
  run (A.handler env req) w
  = ([A.generation_request env sys_string (body_or_empty req) recent],
     inr (reply_details "Text generation failed" errText)).
Proof.
  intros HM HK HS HR Hw Hok Ht. unfold A.handler, await_text, lift.
  rewrite HM, jseqb_refl, HK. simpl. rewrite HS. simpl. rewrite HR. simpl.
  rewrite Hw. simpl. rewrite Hok. simpl. rewrite Ht. reflexivity.
Qed.

(** C2.  In the first revision the [details] of the "Text generation failed"
    answer are the whole upstream body: a body of 2001 code units comes back
    with its 2001 code units, after a single generation call. *)
Theorem generation_failure_details_untruncated_A :
  run (A.handler mock_env (post (JObj [])))
    (mock_world (canned false (repeat 120 2001) (@JNull number) [])
                (canned true [] JNull []))
  = ([A.generation_request mock_env
        (A.sys_text (str "it-IT") (@JStr number (str "3-5"))) (JObj []) (JArr [])],
     inr (reply_details "Text generation failed" (repeat 120 2001)))
  /\ length (repeat 120 2001) = 2001%nat.
Proof. split; [reflexivity | apply repeat_length]. Qed.

(** C5.  Two bodies that differ in [transcript] only get the same system
    instruction in either revision (or fail alike to build it); their user
    payloads have the same profile, drawing summary and events and carry
    the transcript as [child_spoken_signal]; the generation call is built
    from the two. *)
Theorem system_prompt_ignores_transcript (env : environment)
    (b1 b2 recent : json number) :
  (forall k, k <> str "transcript" -> prop b1 k = prop b2 k) ->
  (A.system_prompt b1 = A.system_prompt b2
   /\ B.system_prompt b1 = B.system_prompt b2)
  /\ (exists profile drawing,
        forall b, b = b1 \/ b = b2 ->
          user b recent
          = JObj [field "child_profile" profile;
                  field "drawing_summary" drawing;
                  field "child_spoken_signal" (transcript_of b);
                  field "recent_events" recent])
  /\ last_events_of b1 = last_events_of b2
  /\ (forall b sys_string,
        A.generation_request env sys_string b recent
        = post_json responses_url (or_default (OPENAI_API_KEY env) [])
            (generation_body (or_default (EMMA_TEXT_MODEL env) (str "gpt-4o-mini"))
               sys_string (user b recent))
        /\ B.generation_request env sys_string b recent
           = post_json responses_url (or_default (OPENAI_API_KEY env) [])
               (generation_body (or_default (EMMA_TEXT_MODEL env) (str "gpt-4o-mini"))
                  sys_string (user b recent)))
  /\ (forall (req : request number) (w : world number) calls out g,
        In g calls -> url g = responses_url ->
        (run (A.handler env req) w = (calls, out) ->
         exists sys_string forwarded,
           A.system_prompt (body_or_empty req) = inr sys_string
           /\ g = A.generation_request env sys_string (body_or_empty req) forwarded)
        /\ (run (B.handler env req) w = (calls, out) ->
            exists sys_string forwarded,
              B.system_prompt (body_or_empty req) = inr sys_string
              /\ g = B.generation_request env sys_string (body_or_empty req) forwarded)).
Proof.
  intros H.
  assert (Hl : lang_of b1 = lang_of b2)
    by (unfold lang_of; rewrite H; [reflexivity | vm_compute; discriminate]).
  assert (Ha : age_band_of b1 = age_band_of b2)
    by (unfold age_band_of; rewrite H; [reflexivity | vm_compute; discriminate]).
  assert (Hc : child_id_of b1 = child_id_of b2)
    by (unfold child_id_of; rewrite H; [reflexivity | vm_compute; discriminate]).
  assert (Hd : drawing_summary_of b1 = drawing_summary_of b2)
    by (unfold drawing_summary_of; rewrite H; [reflexivity | vm_compute; discriminate]).
  assert (He : last_events_of b1 = last_events_of b2)
    by (unfold last_events_of; rewrite H; [reflexivity | vm_compute; discriminate]).
  split; [|split; [|split; [|split]]].
  - unfold A.system_prompt, B.system_prompt. rewrite Hl, Ha. split; reflexivity.
  - exists (JObj [field "child_id" (child_id_of b2);
                  field "age_band" (age_band_of b2);
                  field "lang" (lang_of b2)]), (drawing_summary_of b2).
    intros b [-> | ->]; unfold user; rewrite ?Hl, ?Ha, ?Hc, ?Hd; reflexivity.
  - exact He.
  - intros b sys_string. split; reflexivity.
  - intros req w calls out g Hin Hu. split.
    + unfold A.handler. run_cases w; intros Hr; inversion Hr; subst;
        simpl in Hin; intuition; subst;
        try (exfalso; apply urls_differ; symmetry; exact Hu);
        do 2 eexists; split; reflexivity.
    + unfold B.handler. run_cases w; intros Hr; inversion Hr; subst;
        simpl in Hin; intuition; subst;
        try (exfalso; apply urls_differ; symmetry; exact Hu);
        do 2 eexists; split; reflexivity.
Qed.

(** C6.  When [last_events] is an array (or absent, which makes it the
    empty array), every generation call that is made carries, as the
    [recent_events] of its user payload, the last 10 entries of the array
    when it has more than 10 and the array itself otherwise; the call is made
    whenever the system instruction can be built. *)
Theorem recent_events_last_ten (env : environment) (req : request number)
    (w : world number) (events : list (json number)) :
  method req = str "POST" ->
  configured (OPENAI_API_KEY env) = true ->
  last_events_of (body_or_empty req) = JArr events ->
  ((forall calls out g,
      run (A.handler env req) w = (calls, out) ->
      In g calls -> url g = responses_url ->
      exists sys_string,
        A.system_prompt (body_or_empty req) = inr sys_string
        /\ g = A.generation_request env sys_string (body_or_empty req)
                 (JArr (slice_last 10 events)))
   /\ (forall calls out g,
         run (B.handler env req) w = (calls, out) ->
         In g calls -> url g = responses_url ->
         exists sys_string,
           B.system_prompt (body_or_empty req) = inr sys_string
           /\ g = B.generation_request env sys_string (body_or_empty req)
                    (JArr (slice_last 10 events))))
  /\ ((forall sys_string,
         A.system_prompt (body_or_empty req) = inr sys_string ->
         exists rest,
           fst (run (A.handler env req) w)
           = A.generation_request env sys_string (body_or_empty req)
               (JArr (slice_last 10 events)) :: rest)
      /\ (forall sys_string,
            B.system_prompt (body_or_empty req) = inr sys_string ->
            exists rest,
              fst (run (B.handler env req) w)
              = B.generation_request env sys_string (body_or_empty req)
                  (JArr (slice_last 10 events)) :: rest))
  /\ (forall sys_string b recent,
        let body :=
          JSON_stringify
            (JObj [field "model"
                     (JStr (or_default (EMMA_TEXT_MODEL env) (str "gpt-4o-mini")));
                   field "input"
                     (JArr [JObj [field "role" (JStr (str "system"));
                                  field "content" (JStr sys_string)];
                            JObj [field "role" (JStr (str "user"));
                                  field "content"
                                    (JStr (JSON_stringify
                                       (JObj [field "child_profile"
                                                (JObj [field "child_id" (child_id_of b);
                                                       field "age_band" (age_band_of b);
                                                       field "lang" (lang_of b)]);
                                              field "drawing_summary"
                                                (drawing_summary_of b);
                                              field "child_spoken_signal"
                                                (transcript_of b);
                                              field "recent_events" recent])))]]);
                   field "temperature" (JNum temperature)]) in
        fetch_body (A.generation_request env sys_string b recent) = body
        /\ fetch_body (B.generation_request env sys_string b recent) = body)
  /\ ((10 < length events)%nat ->
      length (slice_last 10 events) = 10%nat
      /\ exists dropped, events = dropped ++ slice_last 10 events)
  /\ ((length events <= 10)%nat -> slice_last 10 events = events).
Proof.
  intros HM HK HE. split; [split|split; [split|split; [|split]]].
  - intros calls out g. unfold A.handler. rewrite HM, jseqb_refl, HK, HE.
    replace (A.recent_events (JArr events))
      with (@Ret number _ (@JArr number (slice_last 10 events))) by reflexivity.
    run_cases w; intros Hr Hin Hu; inversion Hr; subst;
      simpl in Hin; intuition; subst;
      try (exfalso; apply urls_differ; symmetry; exact Hu);
      eexists; split; reflexivity.
  - intros calls out g. unfold B.handler. rewrite HM, jseqb_refl, HK, HE.
    replace (B.recent_events (JArr events))
      with (@JArr number (slice_last 10 events)) by reflexivity.
    run_cases w; intros Hr Hin Hu; inversion Hr; subst;
      simpl in Hin; intuition; subst;
      try (exfalso; apply urls_differ; symmetry; exact Hu);
      eexists; split; reflexivity.
  - intros sys_string HS. unfold A.handler, lift.
    rewrite HM, jseqb_refl, HK, HE, HS. simpl.
    destruct (run _ w) as [calls out]. exists calls. reflexivity.
  - intros sys_string HS. unfold B.handler, lift.
    rewrite HM, jseqb_refl, HK, HE, HS. simpl.
    destruct (run _ w) as [calls out]. exists calls. reflexivity.
  - intros sys_string b recent body. split; reflexivity.
  - apply slice_last_long.
  - apply slice_last_short.
Qed.

(** C9.  Whenever a call to the synthesis service is answered without
    success and the body of that answer can be read, the handler answers
    with status 500, the error "TTS failed", the body as [details] (capped at
    2000 code units in the second revision) and, as [text], the sanitized
    text that was the input of that call.  When reading the body fails, the
    answer is the "Server error" of the catch clause, with neither. *)
Theorem synthesis_failure_returns_text (env : environment) (req : request number)
    (w : world number) :
  (forall calls out sp r,
     run (A.handler env req) w = (calls, out) ->
     In sp calls -> url sp = speech_url -> w sp = Resolved r -> ok r = false ->
     exists raw clean,
       A.cleanText raw = inr clean
       /\ fetch_body sp
          = JSON_stringify
              (JObj [field "model"
                       (JStr (or_default (EMMA_TTS_MODEL env) (str "gpt-4o-mini-tts")));
                     field "voice" (JStr (or_default (EMMA_VOICE env) (str "alloy")));
                     field "input" (JStr clean);
                     field "format" (JStr (str "mp3"))])
       /\ (forall errText,
             text r = inr errText ->
             out = inr {| status := 500;
                          payload := JObj [field "error" (JStr (str "TTS failed"));
                                           field "details" (JStr errText);
                                           field "text" (JStr clean)] |})
       /\ (forall e,
             text r = inl e ->
             out = inr {| status := 500;
                          payload := JObj [field "error" (JStr (str "Server error"));
                                           field "details"
                                             (JStr (error_details e))] |}))
  /\ (forall calls out sp r,
        run (B.handler env req) w = (calls, out) ->
        In sp calls -> url sp = speech_url -> w sp = Resolved r -> ok r = false ->
        exists raw clean,
          B.cleanText raw = inr clean
          /\ fetch_body sp
             = JSON_stringify
                 (JObj [field "model"
                          (JStr (or_default (EMMA_TTS_MODEL env)
                                   (str "gpt-4o-mini-tts")));
                        field "voice"
                          (JStr (or_default (EMMA_VOICE env) (str "alloy")));
                        field "input" (JStr clean);
                        field "format" (JStr (str "mp3"))])
          /\ (forall errText,
                text r = inr errText ->
                out = inr {| status := 500;
                             payload := JObj [field "error" (JStr (str "TTS failed"));
                                              field "details"
                                                (JStr (slice_to 2000 errText));
                                              field "text" (JStr clean)] |})
          /\ (forall e,
                text r = inl e ->
                out = inr {| status := 500;
                             payload := JObj [field "error" (JStr (str "Server error"));
                                              field "details"
                                                (JStr (error_details e))] |})).
Proof.
  split; intros calls out sp r.
  - unfold A.handler. run_cases w; intros H Hin Hu Hw Hok; inversion H; subst;
      simpl in Hin; intuition; subst;
      try (exfalso; apply urls_differ; exact Hu); try congruence;
      match goal with
      | H1 : w ?c = Resolved ?a, H2 : w ?c = Resolved ?b |- _ =>
          assert (a = b) by congruence; subst
      end; try congruence;
      (do 2 eexists; split; [eassumption|]; split; [reflexivity|];
       split; intros ? Ht; try congruence;
       match goal with
       | H1 : text ?x = ?a, H2 : text ?x = ?b |- _ =>
           assert (Hab : a = b) by congruence; inversion Hab; subst; reflexivity
       end).
  - unfold B.handler. run_cases w; intros H Hin Hu Hw Hok; inversion H; subst;
      simpl in Hin; intuition; subst;
      try (exfalso; apply urls_differ; exact Hu); try congruence;
      match goal with
      | H1 : w ?c = Resolved ?a, H2 : w ?c = Resolved ?b |- _ =>
          assert (a = b) by congruence; subst
      end; try congruence;
      (do 2 eexists; split; [eassumption|]; split; [reflexivity|];
       split; intros ? Ht; try congruence;
       match goal with
       | H1 : text ?x = ?a, H2 : text ?x = ?b |- _ =>
           assert (Hab : a = b) by congruence; inversion Hab; subst; reflexivity
       end).
Qed.

(** ** Further behaviour of the handler *)

Ltac in_cases H :=
  simpl in H; repeat (destruct H as [H|H]; [subst|]); try contradiction.

(** X9.  The health probe of the second revision answers a GET with status
    200 and no outbound call, whatever the body; its answer tells whether a
    credential is configured but does not depend on the credential
    otherwise. *)
Theorem health_probe_hides_credential (env : environment) (req : request number)
    (w : world number) (key' : option jsstring) :
  method req = str "GET" ->
  configured key' = configured (OPENAI_API_KEY env) ->
  run (B.handler env req) w = ([], inr (B.reply_health env))
  /\ status (@B.reply_health number env) = 200
  /\ prop (payload (@B.reply_health number env)) (str "hasOpenAIKey")
     = Some (JBool (configured (OPENAI_API_KEY env)))
  /\ B.reply_health {| OPENAI_API_KEY := key';
                       EMMA_TEXT_MODEL := EMMA_TEXT_MODEL env;
                       EMMA_TTS_MODEL := EMMA_TTS_MODEL env;
                       EMMA_VOICE := EMMA_VOICE env |}
     = @B.reply_health number env.
Proof.
  intros HM HK. repeat split.
  - unfold B.handler. rewrite HM. reflexivity.
  - unfold B.reply_health. simpl. rewrite HK. reflexivity.
Qed.

(** X10.  Every answer has status 200, 405 or 500; an answer with status 405
    or 500 carries an [error] string and an answer with status 200 has no
    [error] field. *)
Theorem answers_have_status_and_error (env : environment) (req : request number)
    (w : world number) :
  (forall calls resp,
     run (A.handler env req) w = (calls, inr resp) ->
     (status resp = 200 /\ prop (payload resp) (str "error") = None)
     \/ ((status resp = 405 \/ status resp = 500)
         /\ exists msg, prop (payload resp) (str "error") = Some (JStr msg)))
  /\ (forall calls resp,
        run (B.handler env req) w = (calls, inr resp) ->
        (status resp = 200 /\ prop (payload resp) (str "error") = None)
        \/ ((status resp = 405 \/ status resp = 500)
            /\ exists msg, prop (payload resp) (str "error") = Some (JStr msg))).
Proof.
  split; intros calls resp.
  - unfold A.handler. run_cases w; intros H; inversion H; subst;
      first [ left; split; reflexivity
            | right; split;
              [first [left; reflexivity | right; reflexivity]
              | eexists; reflexivity] ].
  - unfold B.handler. run_cases w; intros H; inversion H; subst;
      first [ left; split; reflexivity
            | right; split;
              [first [left; reflexivity | right; reflexivity]
              | eexists; reflexivity] ].
Qed.

(** X11.  The outbound calls of a request are none, or one call to the
    generation service, or that call followed by one call to the synthesis
    service: the synthesis service is never called first and no call is made
    twice. *)
Theorem calls_are_generation_then_synthesis (env : environment)
    (req : request number) (w : world number) :
  (forall calls out,
     run (A.handler env req) w = (calls, out) ->
     calls = []
     \/ (exists g, calls = [g] /\ url g = responses_url)
     \/ (exists g s, calls = [g; s] /\ url g = responses_url /\ url s = speech_url))
  /\ (forall calls out,
        run (B.handler env req) w = (calls, out) ->
        calls = []
        \/ (exists g, calls = [g] /\ url g = responses_url)
        \/ (exists g s, calls = [g; s] /\ url g = responses_url /\ url s = speech_url)).
Proof.
  split; intros calls out.
  - unfold A.handler. run_cases w; intros H; inversion H; subst;
      first [ left; reflexivity
            | right; left; eexists; split; reflexivity
            | right; right; do 2 eexists; repeat split; reflexivity ].
  - unfold B.handler. run_cases w; intros H; inversion H; subst;
      first [ left; reflexivity
            | right; left; eexists; split; reflexivity
            | right; right; do 2 eexists; repeat split; reflexivity ].
Qed.

(** X12.  When an outbound call is rejected (the network fails), that call is
    the last one and the answer is status 500, "Server error", with the
    message of the error as [details] and no [text]. *)
Theorem rejected_call_is_server_error (env : environment) (req : request number)
    (w : world number) :
  (forall calls out g e,
     run (A.handler env req) w = (calls, out) ->
     In g calls -> w g = Rejected e ->
     (exists before, calls = before ++ [g])
     /\ out = inr {| status := 500;
                     payload := JObj [field "error" (JStr (str "Server error"));
                                      field "details" (JStr (error_details e))] |})
  /\ (forall calls out g e,
        run (B.handler env req) w = (calls, out) ->
        In g calls -> w g = Rejected e ->
        (exists before, calls = before ++ [g])
        /\ out = inr {| status := 500;
                        payload := JObj [field "error" (JStr (str "Server error"));
                                         field "details" (JStr (error_details e))] |}).
Proof.
  split; intros calls out g e.
  - unfold A.handler. run_cases w; intros H Hin Hw; inversion H; subst;
      in_cases Hin; try congruence;
      match goal with
      | H1 : w ?c = Rejected ?a, H2 : w ?c = Rejected ?b |- _ =>
          assert (a = b) by congruence; subst
      end;
      (split; [first [exists []; reflexivity | eexists [_]; reflexivity]
              | reflexivity]).
  - unfold B.handler. run_cases w; intros H Hin Hw; inversion H; subst;
      in_cases Hin; try congruence;
      match goal with
      | H1 : w ?c = Rejected ?a, H2 : w ?c = Rejected ?b |- _ =>
          assert (a = b) by congruence; subst
      end;
      (split; [first [exists []; reflexivity | eexists [_]; reflexivity]
              | reflexivity]).
Qed.

(** X13.  When the generation service answers with success but its body is
    not JSON, the synthesis service is not called and the answer is status
    500, "Server error", with the message of the parse error. *)
Theorem unparsable_generation_is_server_error (env : environment)
    (req : request number) (w : world number) :
  (forall calls out g r e,
     run (A.handler env req) w = (calls, out) ->
     In g calls -> url g = responses_url ->
     w g = Resolved r -> ok r = true -> json_body r = inl e ->
     calls = [g] /\ out = inr (reply_details "Server error" (error_details e)))
  /\ (forall calls out g r e,
        run (B.handler env req) w = (calls, out) ->
        In g calls -> url g = responses_url ->
        w g = Resolved r -> ok r = true -> json_body r = inl e ->
        calls = [g] /\ out = inr (reply_details "Server error" (error_details e))).
Proof.
  split; intros calls out g r e.
  - unfold A.handler. run_cases w; intros H Hin Hu Hw Hok Hj; inversion H; subst;
      in_cases Hin;
      try (exfalso; apply urls_differ; symmetry; exact Hu);
      try congruence;
      match goal with
      | H1 : w ?c = Resolved ?a, H2 : w ?c = Resolved ?b |- _ =>
          assert (a = b) by congruence; subst
      end; try congruence.
    split; [reflexivity | congruence].
  - unfold B.handler. run_cases w; intros H Hin Hu Hw Hok Hj; inversion H; subst;
      in_cases Hin;
      try (exfalso; apply urls_differ; symmetry; exact Hu);
      try congruence;
      match goal with
      | H1 : w ?c = Resolved ?a, H2 : w ?c = Resolved ?b |- _ =>
          assert (a = b) by congruence; subst
      end; try congruence.
    split; [reflexivity | congruence].
Qed.

(** Induction on a JSON value, with the items of an array. *)
Lemma json_items_ind (P : json number -> Prop) :
  P JNull -> (forall b, P (JBool b)) -> (forall n, P (JNum n)) ->
  (forall s, P (JStr s)) ->
  (forall items, Forall P items -> P (JArr items)) ->
  (forall fields, P (JObj fields)) ->
  forall v, P v.
Proof.
  intros HN HB HNum HS HA HO.
  exact (fix F (v : json number) : P v :=
           match v with
           | JNull => HN
           | JBool b => HB b
           | JNum n => HNum n
           | JStr s => HS s
           | JArr items =>
               HA items
                 ((fix G (l : list (json number)) : Forall P l :=
                     match l with
                     | [] => Forall_nil P
                     | x :: r => Forall_cons x (F x) (G r)
                     end) items)
           | JObj fields => HO fields
           end).
Qed.

(** A conversion to string fails with a TypeError only. *)
Lemma ToString_error (v : json number) (e : js_error) :
  ToString v = inl e ->
  e = TypeError (str "Cannot convert object to primitive value").
Proof.
  revert e. induction v as [| b | n | s | items IH | fields] using json_items_ind;
    intros e.
  - discriminate.
  - destruct b; discriminate.
  - discriminate.
  - discriminate.
  - cbn [ToString].
    match goal with
    | |- match ?parts items with _ => _ end = _ -> _ =>
        assert (G : forall e', parts items = inl e' ->
                    e' = TypeError (str "Cannot convert object to primitive value"))
    end.
    { clear e. induction IH as [|x rest Hx _ IHr]; intros e' H.
      - discriminate H.
      - cbn beta iota in H.
        destruct (match x with JNull => inr [] | _ => ToString x end) as [e0|p] eqn:Ex.
        + inversion H; subst. destruct x; try discriminate Ex; apply (Hx _ Ex).
        + match type of H with
          | match ?t with _ => _ end = _ => destruct t as [e1|ps] eqn:Er
          end; [|discriminate H].
          inversion H; subst. apply IHr. reflexivity. }
    match goal with
    | |- match ?t with _ => _ end = _ -> _ => destruct t as [e0|ps] eqn:Ep
    end; [|discriminate].
    intros H. inversion H; subst. apply G. reflexivity.
  - cbn [ToString]. destruct (assoc (str "toString") fields); [|discriminate].
    intros H. inversion H. reflexivity.
Qed.

Lemma system_prompt_error (b : json number) (e : js_error) :
  A.system_prompt b = inl e \/ B.system_prompt b = inl e ->
  err_name e = str "TypeError".
Proof.
  unfold A.system_prompt, B.system_prompt, A.sys, B.sys.
  intros [H | H]; destruct (ToString (lang_of b)) as [e0|l] eqn:E;
    try discriminate H; inversion H; subst;
    rewrite (ToString_error _ _ E); reflexivity.
Qed.

(** X14.  A [last_events] that is not an array, on a request whose system
    instruction can be built: the second revision forwards an empty list of
    recent events and the first one forwards the last 10 code units of a
    string.  On any other value the first revision fails with a TypeError
    before any outbound call and answers status 500, "Server error". *)
Theorem last_events_not_an_array (env : environment) (req : request number)
    (w : world number) :
  method req = str "POST" ->
  configured (OPENAI_API_KEY env) = true ->
  (forall items, last_events_of (body_or_empty req) <> JArr items) ->
  (forall sys_string,
     B.system_prompt (body_or_empty req) = inr sys_string ->
     exists rest,
       fst (run (B.handler env req) w)
       = B.generation_request env sys_string (body_or_empty req) (JArr []) :: rest)
  /\ (forall sys_string s,
        A.system_prompt (body_or_empty req) = inr sys_string ->
        last_events_of (body_or_empty req) = JStr s ->
        exists rest,
          fst (run (A.handler env req) w)
          = A.generation_request env sys_string (body_or_empty req)
              (JStr (slice_last 10 s)) :: rest)
  /\ ((forall s, last_events_of (body_or_empty req) <> JStr s) ->
      exists e,
        err_name e = str "TypeError"
        /\ run (A.handler env req) w
           = ([], inr (reply_details "Server error" (error_details e)))).
Proof.
  intros HM HK HA. split; [|split].
  - intros sys_string HS. unfold B.handler, lift.
    rewrite HM, jseqb_refl, HK, HS. simpl.
    replace (B.recent_events (last_events_of (body_or_empty req)))
      with (@JArr number []).
    + destruct (run _ w) as [calls out]. exists calls. reflexivity.
    + unfold B.recent_events.
      destruct (last_events_of (body_or_empty req)); try reflexivity.
      exfalso. eapply HA. reflexivity.
  - intros sys_string s HS Hs. unfold A.handler, lift.
    rewrite HM, jseqb_refl, HK, HS, Hs. simpl.
    destruct (run _ w) as [calls out]. exists calls. reflexivity.
  - intros HS. unfold A.handler, lift. rewrite HM, jseqb_refl, HK. simpl.
    destruct (A.system_prompt (body_or_empty req)) as [e|sys_string] eqn:E; simpl.
    + exists e. split; [|reflexivity].
      apply (system_prompt_error (body_or_empty req)). left. exact E.
    + unfold A.recent_events.
      destruct (last_events_of (body_or_empty req)) eqn:E';
        try (eexists; split; [|reflexivity]; reflexivity).
      * exfalso. eapply HS. reflexivity.
      * exfalso. eapply HA. reflexivity.
Qed.

Lemma cleanText_of_string_A (x : jsstring) :
  A.cleanText (@JStr number x) = inr (A.sanitize x).
Proof. unfold A.cleanText. destruct x; reflexivity. Qed.

(** X15.  When the generation answer has no truthy [output_text] but an
    array [output], the first revision sends the sanitized JSON text of that
    array to the synthesis service, while the second revision answers
    status 500, "Empty AI text output", without a synthesis call. *)
Theorem structured_output_fallback (env : environment) (req : request number)
    (w : world number) (r : fetch_response number) (textJson : json number)
    (items : list (json number)) :
  method req = str "POST" ->
  configured (OPENAI_API_KEY env) = true ->
  ok r = true ->
  json_body r = inr textJson ->
  (forall v, prop textJson (str "output_text") = Some v -> truthy v = false) ->
  prop textJson (str "output") = Some (JArr items) ->
  (forall sys_string recent,
     A.system_prompt (body_or_empty req) = inr sys_string ->
     A.recent_events (last_events_of (body_or_empty req)) = Ret recent ->
     w (A.generation_request env sys_string (body_or_empty req) recent) = Resolved r ->
     fst (run (A.handler env req) w)
     = [A.generation_request env sys_string (body_or_empty req) recent;
        A.speech_request env (A.sanitize (JSON_stringify (JArr items)))])
  /\ (forall sys_string,
        B.system_prompt (body_or_empty req) = inr sys_string ->
        w (B.generation_request env sys_string (body_or_empty req)
             (B.recent_events (last_events_of (body_or_empty req)))) = Resolved r ->
        run (B.handler env req) w
        = ([B.generation_request env sys_string (body_or_empty req)
              (B.recent_events (last_events_of (body_or_empty req)))],
           inr (reply_error "Empty AI text output"))).
Proof.
  intros HM HK Hok Hj Hot Hout. split.
  - intros sys_string recent HS HR Hw.
    assert (Hraw : A.rawText textJson = Ret (JStr (JSON_stringify (JArr items)))).
    { unfold A.rawText. destruct textJson; try discriminate Hout.
      rewrite Hout. destruct (prop _ (str "output_text")) as [v|] eqn:E;
        [rewrite (Hot v eq_refl)|]; reflexivity. }
    unfold A.handler, await_json, await_text, await_arrayBuffer, lift.
    rewrite HM, jseqb_refl, HK. simpl. rewrite HS. simpl. rewrite HR. simpl.
    rewrite Hw. simpl. rewrite Hok. simpl. rewrite Hj. simpl.
    rewrite Hraw. simpl. rewrite cleanText_of_string_A. simpl.
    destruct (w (A.speech_request env _)) as [e|r']; simpl; [reflexivity|].
    destruct (ok r'); simpl;
      [destruct (arrayBuffer r') | destruct (text r')]; reflexivity.
  - intros sys_string HS Hw.
    assert (Hraw : B.rawText textJson = JStr []).
    { unfold B.rawText. destruct (truthy textJson); [|reflexivity].
      destruct (prop _ (str "output_text")) as [v|] eqn:E;
        [rewrite (Hot v eq_refl)|]; reflexivity. }
    unfold B.handler, await_json, lift. rewrite HM, jseqb_refl, HK. simpl.
    rewrite HS. simpl. rewrite Hw. simpl.
    rewrite Hok. simpl. rewrite Hj. simpl. rewrite Hraw.
    reflexivity.
Qed.

(** X16.  The second revision never calls the synthesis service with an
    empty input. *)
Theorem synthesis_input_not_empty_B (env : environment) (req : request number)
    (w : world number) (calls : list fetch_request)
    (out : js_error + http_response number) (sp : fetch_request) :
  run (B.handler env req) w = (calls, out) ->
  In sp calls -> url sp = speech_url ->
  exists clean, clean <> [] /\ sp = B.speech_request env clean.
Proof.
  unfold B.handler. run_cases w; intros H Hin Hu; inversion H; subst;
    in_cases Hin; try (exfalso; apply urls_differ; exact Hu);
    (eexists; split; [|reflexivity]; discriminate).
Qed.

(** X17.  When the generation answer is JSON but not an object, on a
    request whose system instruction can be built, the second revision
    answers status 500, "Empty AI text output", after the one generation
    call; the first revision answers "Server error" when the value is null
    and otherwise calls the synthesis service with an empty input. *)
Theorem generation_answer_not_an_object (env : environment) (req : request number)
    (w : world number) (r : fetch_response number) (textJson : json number) :
  method req = str "POST" ->
  configured (OPENAI_API_KEY env) = true ->
  ok r = true ->
  json_body r = inr textJson ->
  (forall fields, textJson <> JObj fields) ->
  (forall sys_string,
     B.system_prompt (body_or_empty req) = inr sys_string ->
     w (B.generation_request env sys_string (body_or_empty req)
          (B.recent_events (last_events_of (body_or_empty req)))) = Resolved r ->
     run (B.handler env req) w
     = ([B.generation_request env sys_string (body_or_empty req)
           (B.recent_events (last_events_of (body_or_empty req)))],
        inr (reply_error "Empty AI text output")))
  /\ (forall sys_string recent,
        A.system_prompt (body_or_empty req) = inr sys_string ->
        A.recent_events (last_events_of (body_or_empty req)) = Ret recent ->
        w (A.generation_request env sys_string (body_or_empty req) recent)
        = Resolved r ->
        (textJson = JNull ->
         exists e,
           err_name e = str "TypeError"
           /\ run (A.handler env req) w
              = ([A.generation_request env sys_string (body_or_empty req) recent],
                 inr (reply_details "Server error" (error_details e))))
        /\ (textJson <> JNull ->
            fst (run (A.handler env req) w)
            = [A.generation_request env sys_string (body_or_empty req) recent;
               A.speech_request env []])).
Proof.
  intros HM HK Hok Hj Hobj. split.
  - intros sys_string HS Hw.
    assert (Hraw : B.rawText textJson = JStr []).
    { unfold B.rawText. destruct (truthy textJson); [|reflexivity].
      destruct textJson; try reflexivity. exfalso. eapply Hobj. reflexivity. }
    unfold B.handler, await_json, lift. rewrite HM, jseqb_refl, HK. simpl.
    rewrite HS. simpl. rewrite Hw. simpl.
    rewrite Hok. simpl. rewrite Hj. simpl. rewrite Hraw.
    reflexivity.
  - intros sys_string recent HS HR Hw. split.
    + intros ->. eexists. split; [|
        unfold A.handler, await_json, lift; rewrite HM, jseqb_refl, HK; simpl;
        rewrite HS; simpl; rewrite HR; simpl;
        rewrite Hw; simpl; rewrite Hok; simpl; rewrite Hj;
        simpl; unfold A.rawText; simpl; reflexivity].
      reflexivity.
    + intros Hnull.
      assert (Hraw : A.rawText textJson = Ret (JStr [])).
      { unfold A.rawText. destruct textJson; try reflexivity.
        - contradiction.
        - exfalso. eapply Hobj. reflexivity. }
      unfold A.handler, await_json, await_text, await_arrayBuffer, lift.
      rewrite HM, jseqb_refl, HK. simpl. rewrite HS. simpl. rewrite HR. simpl.
      rewrite Hw. simpl. rewrite Hok. simpl. rewrite Hj. simpl.
      rewrite Hraw. simpl.
      rewrite ?cleanText_of_string_A. simpl.
      change (A.sanitize []) with (@nil Z).
      destruct (w (A.speech_request env [])) as [e|r']; simpl; [reflexivity|].
      destruct (ok r'); simpl;
        [destruct (arrayBuffer r') | destruct (text r')]; reflexivity.
Qed.

(** X23.  On a POST with a credential, a [lang] that cannot be converted to
    a string (an object with a key [toString] of its own) stops the handler
    while it builds the system instruction: no outbound call is made and the
    answer is status 500, "Server error", with the message of the TypeError.
    A [lang] that can be converted lets the second revision make the
    generation call, with that text in the system instruction. *)
Theorem unrenderable_locale_is_server_error (env : environment)
    (req : request number) (w : world number) :
  method req = str "POST" ->
  configured (OPENAI_API_KEY env) = true ->
  (forall fields v,
     lang_of (body_or_empty req) = JObj fields ->
     assoc (str "toString") fields = Some v ->
     ToString (lang_of (body_or_empty req))
     = inl (TypeError (str "Cannot convert object to primitive value")))
  /\ (forall e,
        ToString (lang_of (body_or_empty req)) = inl e ->
        err_name e = str "TypeError"
        /\ run (A.handler env req) w
           = ([], inr {| status := 500;
                         payload := JObj [field "error" (JStr (str "Server error"));
                                          field "details" (JStr (error_details e))] |})
        /\ run (B.handler env req) w
           = ([], inr {| status := 500;
                         payload := JObj [field "error" (JStr (str "Server error"));
                                          field "details" (JStr (error_details e))] |}))
  /\ (forall locale,
        ToString (lang_of (body_or_empty req)) = inr locale ->
        exists rest,
          fst (run (B.handler env req) w)
          = B.generation_request env
              (B.sys_text locale (age_band_of (body_or_empty req)))
              (body_or_empty req)
              (B.recent_events (last_events_of (body_or_empty req))) :: rest).
Proof.
  intros HM HK. split; [|split].
  - intros fields v HL HT. rewrite HL. cbn [ToString]. rewrite HT. reflexivity.
  - intros e HE. split; [|split].
    + rewrite (ToString_error _ _ HE). reflexivity.
    + unfold A.handler, lift, A.system_prompt, A.sys.
      rewrite HM, jseqb_refl, HK, HE. reflexivity.
    + unfold B.handler, lift, B.system_prompt, B.sys.
      rewrite HM, jseqb_refl, HK, HE.
      destruct (jseqb (str "POST") (str "GET")) eqn:E; [discriminate E|].
      reflexivity.
  - intros locale HL. unfold B.handler, lift, B.system_prompt, B.sys.
    rewrite HM, jseqb_refl, HK, HL.
    destruct (jseqb (str "POST") (str "GET")) eqn:E; [discriminate E|].
    simpl. destruct (run _ w) as [calls out]. exists calls. reflexivity.
Qed.

(** X24.  When the body of an answer cannot be read (the text of an answer
    without success, the bytes of a successful synthesis answer), that call
    is the last one and the answer is status 500, "Server error", with the
    message of the failure as [details] and no [text]. *)
Theorem unreadable_answer_is_server_error (env : environment)
    (req : request number) (w : world number) :
  (forall calls out g r e,
     run (A.handler env req) w = (calls, out) ->
     In g calls -> w g = Resolved r ->
     (ok r = false /\ text r = inl e)
     \/ (ok r = true /\ url g = speech_url /\ arrayBuffer r = inl e) ->
     (exists before, calls = before ++ [g])
     /\ out = inr {| status := 500;
                     payload := JObj [field "error" (JStr (str "Server error"));
                                      field "details" (JStr (error_details e))] |})
  /\ (forall calls out g r e,
        run (B.handler env req) w = (calls, out) ->
        In g calls -> w g = Resolved r ->
        (ok r = false /\ text r = inl e)
        \/ (ok r = true /\ url g = speech_url /\ arrayBuffer r = inl e) ->
        (exists before, calls = before ++ [g])
        /\ out = inr {| status := 500;
                        payload := JObj [field "error" (JStr (str "Server error"));
                                         field "details" (JStr (error_details e))] |}).
Proof.
  split; intros calls out g r e.
  - unfold A.handler. run_cases w; intros H Hin Hw Hc; inversion H; subst;
      in_cases Hin; try congruence;
      repeat match goal with
      | H1 : w ?c = Resolved ?a, H2 : w ?c = Resolved ?b |- _ =>
          assert (a = b) by congruence; subst; clear H2
      end;
      destruct Hc as [[Hok Ht] | [Hok [Hu Hb]]]; try congruence;
      try (exfalso; apply urls_differ; exact Hu);
      (split; [first [exists []; reflexivity | eexists [_]; reflexivity]|]);
      match goal with
      | H1 : ?f ?x = inl ?a, H2 : ?f ?x = inl ?b |- _ =>
          assert (Hab : a = b) by congruence; subst; reflexivity
      end.
  - unfold B.handler. run_cases w; intros H Hin Hw Hc; inversion H; subst;
      in_cases Hin; try congruence;
      repeat match goal with
      | H1 : w ?c = Resolved ?a, H2 : w ?c = Resolved ?b |- _ =>
          assert (a = b) by congruence; subst; clear H2
      end;
      destruct Hc as [[Hok Ht] | [Hok [Hu Hb]]]; try congruence;
      try (exfalso; apply urls_differ; exact Hu);
      (split; [first [exists []; reflexivity | eexists [_]; reflexivity]|]);
      match goal with
      | H1 : ?f ?x = inl ?a, H2 : ?f ?x = inl ?b |- _ =>
          assert (Hab : a = b) by congruence; subst; reflexivity
      end.
Qed.
End HandlerProperties.

(** ** The scenarios of the specification, run *)

(** The face U+1F600 goes and the double space it leaves is collapsed; the
    first revision also drops the angle brackets. *)
Example sanitize_palla :
  B.sanitize (str "Che bella palla! " ++ [0xD83D; 0xDE00] ++ str " Di che colore?")
  = str "Che bella palla! Di che colore?"
  /\ A.sanitize (str "  <b>ciao</b> " ++ [0x2600; 0xFE0F]) = str "bciao/b".
Proof. split; vm_compute; reflexivity. Qed.

Example base64_two_bytes : base64 [1; 2] = str "AQI=".
Proof. reflexivity. Qed.

Example scenario_success :
  run (B.handler mock_env (post scenario_body)) scenario_world
  = ([B.generation_request mock_env scenario_sys_B scenario_body (JArr []);
      B.speech_request mock_env scenario_text],
     inr {| status := 200;
            payload :=
              JObj [field "text" (JStr scenario_text);
                    field "audio"
                      (JObj [field "mime" (JStr (str "audio/mpeg"));
                             field "base64" (JStr (str "AQI="))])] |}).
Proof. vm_compute. reflexivity. Qed.

Example scenario_rate_limited :
  run (B.handler mock_env (post scenario_body))
    (mock_world (canned false (str "rate limited") JNull [])
                (canned true [] JNull [1; 2]))
  = ([B.generation_request mock_env scenario_sys_B scenario_body (JArr [])],
     inr {| status := 500;
            payload := JObj [field "error" (JStr (str "Text generation failed"));
                             field "details" (JStr (str "rate limited"))] |}).
Proof. vm_compute. reflexivity. Qed.

Example scenario_health_probe :
  run (B.handler mock_env {| method := str "GET"; body := None |}) scenario_world
  = ([], inr (B.reply_health mock_env)).
Proof. reflexivity. Qed.


(** A [lang] that is an object with a key [toString] cannot be rendered into
    the system instruction: the handler answers from its catch clause and
    calls no service. *)
Example scenario_unrenderable_locale :
  run (B.handler mock_env
         (post (JObj [field "lang" (JObj [field "toString" (JNum (str "1"))])])))
    scenario_world
  = ([], inr (reply_details "Server error"
                (str "Cannot convert object to primitive value")))
  /\ run (A.handler mock_env
            (post (JObj [field "lang" (JObj [field "toString" (JNum (str "1"))])])))
       scenario_world
     = ([], inr (reply_details "Server error"
                   (str "Cannot convert object to primitive value"))).
Proof. split; vm_compute; reflexivity. Qed.

(** A generated text with the sun U+2600 between two lone surrogates: the
    face U+1F600 reaches the synthesis service and the caller. *)
Example scenario_joined_surrogates :
  run (B.handler mock_env (post scenario_body))
    (mock_world
       (canned true [] (JObj [field "output_text" (JStr [0xD83D; 0x2600; 0xDE00])]) [])
       (canned true [] JNull [1; 2]))
  = ([B.generation_request mock_env scenario_sys_B scenario_body (JArr []);
      B.speech_request mock_env [0xD83D; 0xDE00]],
     inr {| status := 200;
            payload :=
              JObj [field "text" (JStr [0xD83D; 0xDE00]);
                    field "audio"
                      (JObj [field "mime" (JStr (str "audio/mpeg"));
                             field "base64" (JStr (str "AQI="))])] |}).
Proof. vm_compute. reflexivity. Qed.

(** ** Instances of the conditional statements *)

Lemma system_prompt_ignores_transcript_witness :
  (forall k, k <> str "transcript" ->
     prop (JObj [field "transcript" (JStr (str "palla rossa"))] : json jsstring) k
     = prop (JObj [field "transcript" (JStr (str "mela"))]) k)
  /\ A.system_prompt (JObj [field "transcript" (JStr (str "palla rossa"))] : json jsstring)
     = A.system_prompt (JObj [field "transcript" (JStr (str "mela"))])
  /\ B.system_prompt (JObj [field "transcript" (JStr (str "palla rossa"))] : json jsstring)
     = B.system_prompt (JObj [field "transcript" (JStr (str "mela"))]).
Proof.
  assert (H : forall k, k <> str "transcript" ->
            prop (JObj [field "transcript" (JStr (str "palla rossa"))] : json jsstring) k
            = prop (JObj [field "transcript" (JStr (str "mela"))]) k).
  { intros k Hk. simpl. unfold field. simpl. rewrite (jseqb_neq _ _ Hk). reflexivity. }
  split; [exact H|].
  exact (proj1 (system_prompt_ignores_transcript mock_env _ _ JNull H)).
Defined.

Lemma recent_events_last_ten_witness :
  method (post (JObj [field "last_events" (JArr twelve_events)])) = str "POST"
  /\ configured (OPENAI_API_KEY mock_env) = true
  /\ last_events_of
       (body_or_empty (post (JObj [field "last_events" (JArr twelve_events)])))
     = JArr twelve_events
  /\ (exists rest,
        fst (run (A.handler mock_env (post (JObj [field "last_events" (JArr twelve_events)])))
               scenario_world)
        = A.generation_request mock_env
            (A.sys_text (str "it-IT") (@JStr jsstring (str "3-5")))
            (body_or_empty (post (JObj [field "last_events" (JArr twelve_events)])))
            (JArr (slice_last 10 twelve_events)) :: rest)
  /\ length (slice_last 10 twelve_events) = 10%nat.
Proof.
  repeat (split; [reflexivity|]).
  pose proof (recent_events_last_ten mock_env
                (post (JObj [field "last_events" (JArr twelve_events)]))
                scenario_world twelve_events eq_refl eq_refl eq_refl) as H.
  split; [exact (proj1 (proj1 (proj2 H)) _ eq_refl) | reflexivity].
Defined.

Lemma missing_credential_fails_fast_witness :
  method (post scenario_body) = str "POST"
  /\ configured (OPENAI_API_KEY
                   {| OPENAI_API_KEY := None; EMMA_TEXT_MODEL := None;
                      EMMA_TTS_MODEL := None; EMMA_VOICE := None |}) = false
  /\ run (A.handler {| OPENAI_API_KEY := None; EMMA_TEXT_MODEL := None;
                       EMMA_TTS_MODEL := None; EMMA_VOICE := None |}
            (post scenario_body)) scenario_world
     = ([], inr (reply_error "Missing OPENAI_API_KEY"))
  /\ run (B.handler {| OPENAI_API_KEY := None; EMMA_TEXT_MODEL := None;
                       EMMA_TTS_MODEL := None; EMMA_VOICE := None |}
            (post scenario_body)) scenario_world
     = ([], inr B.reply_missing_key).
Proof.
  split; [reflexivity|]. split; [reflexivity|].
  exact (proj1 (missing_credential_fails_fast
                  {| OPENAI_API_KEY := None; EMMA_TEXT_MODEL := None;
                     EMMA_TTS_MODEL := None; EMMA_VOICE := None |}
                  (post scenario_body) scenario_world eq_refl eq_refl)).
Defined.

Lemma other_methods_rejected_witness :
  method {| method := str "PUT"; body := Some scenario_body |} <> str "POST"
  /\ run (A.handler mock_env {| method := str "PUT"; body := Some scenario_body |})
       scenario_world
     = ([], inr reply_method_not_allowed).
Proof.
  assert (H : method {| method := str "PUT"; body := Some scenario_body |} <> str "POST")
    by (vm_compute; discriminate).
  split; [exact H|].
  exact (proj1 (other_methods_rejected mock_env
                  {| method := str "PUT"; body := Some scenario_body |}
                  scenario_world H)).
Defined.

(** The third end-to-end scenario: the generator answers with the text of
    the first scenario and the synthesizer answers without success, with the
    body "quota exceeded". *)
Lemma synthesis_failure_returns_text_witness :
  In (B.speech_request mock_env scenario_text)
     [B.generation_request mock_env scenario_sys_B scenario_body (JArr []);
      B.speech_request mock_env scenario_text]
  /\ exists raw clean,
       B.cleanText raw = inr clean
       /\ fetch_body (B.speech_request mock_env scenario_text)
          = JSON_stringify
              (JObj [field "model" (JStr (str "gpt-4o-mini-tts"));
                     field "voice" (JStr (str "alloy"));
                     field "input" (JStr clean);
                     field "format" (JStr (str "mp3"))])
       /\ @inr js_error (http_response jsstring)
            (reply_tts_failed (slice_to 2000 (str "quota exceeded")) scenario_text)
          = inr {| status := 500;
                   payload := JObj [field "error" (JStr (str "TTS failed"));
                                    field "details"
                                      (JStr (slice_to 2000 (str "quota exceeded")));
                                    field "text" (JStr clean)] |}.
Proof.
  assert (Hin : In (B.speech_request mock_env scenario_text)
                  [B.generation_request mock_env scenario_sys_B scenario_body (JArr []);
                   B.speech_request mock_env scenario_text])
    by (right; left; reflexivity).
  split; [exact Hin|].
  destruct (proj2 (synthesis_failure_returns_text mock_env (post scenario_body)
                     (mock_world
                        (canned true []
                           (JObj [field "output_text"
                                    (JStr (str "Che bella palla! " ++ [0xD83D; 0xDE00]
                                           ++ str " Di che colore " ++ [0xE8; 63]))]) [])
                        (canned false (str "quota exceeded") JNull [])))
              [B.generation_request mock_env scenario_sys_B scenario_body (JArr []);
               B.speech_request mock_env scenario_text]
              (inr (reply_tts_failed (slice_to 2000 (str "quota exceeded")) scenario_text))
              (B.speech_request mock_env scenario_text)
              {| ok := false; text := inr (str "quota exceeded"); json_body := inr JNull;
                 arrayBuffer := inr [] |}
              ltac:(vm_compute; reflexivity) Hin eq_refl eq_refl eq_refl)
    as (raw & clean & Hc & Hb & Ht & _).
  exists raw, clean. split; [exact Hc|]. split; [exact Hb|].
  exact (Ht _ eq_refl).
Defined.


(** C9, the case the sentence of the specification leaves out.  The
    synthesizer answers without success and its body cannot be read: the
    answer is the "Server error" of the catch clause, it is not "TTS failed"
    and it has no [text]. *)
Lemma synthesis_failure_unreadable_body :
  let w := mock_world
             (canned true []
                (JObj [field "output_text" (JStr (str "Che bella palla!"))]) [])
             (unreadable false (TypeError (str "terminated"))) in
  let answer : http_response jsstring :=
    {| status := 500;
       payload := JObj [field "error" (JStr (str "Server error"));
                        field "details" (JStr (str "terminated"))] |} in
  (exists r, w (B.speech_request mock_env (str "Che bella palla!")) = Resolved r
             /\ ok r = false)
  /\ run (A.handler mock_env (post scenario_body)) w
     = ([A.generation_request mock_env scenario_sys_A scenario_body (JArr []);
         A.speech_request mock_env (str "Che bella palla!")],
        inr answer)
  /\ run (B.handler mock_env (post scenario_body)) w
     = ([B.generation_request mock_env scenario_sys_B scenario_body (JArr []);
         B.speech_request mock_env (str "Che bella palla!")],
        inr answer)
  /\ prop (payload answer) (str "error") <> Some (JStr (str "TTS failed"))
  /\ prop (payload answer) (str "text") = None.
Proof.
  cbv zeta. split; [eexists; split; reflexivity|].
  split; [vm_compute; reflexivity|].
  split; [vm_compute; reflexivity|].
  split; [vm_compute; discriminate | vm_compute; reflexivity].
Qed.

(** * Further properties *)

(** ** The sanitizer on arbitrary strings *)

Lemma last_trim_end s : is_ws (last (trim_end s) 0) = false.
Proof.
  induction s as [|c t IH]; [reflexivity|].
  simpl trim_end. destruct (trim_end t) as [|z r] eqn:E.
  - destruct (is_ws c) eqn:W; [reflexivity | exact W].
  - exact IH.
Qed.

Lemma trim_end_fix s : is_ws (last s 0) = false -> trim_end s = s.
Proof.
  induction s as [|c t IH]; [reflexivity|].
  destruct t as [|z r].
  - simpl. intros H. rewrite H. reflexivity.
  - intros H. change (last (c :: z :: r) 0) with (last (z :: r) 0) in H.
    change (trim_end (c :: z :: r))
      with (match trim_end (z :: r) with
            | [] => if is_ws c then [] else [c]
            | x :: y => c :: x :: y
            end).
    rewrite (IH H). reflexivity.
Qed.

(** X1.  Whatever the input, the sanitized text of either revision neither
    starts nor ends with white space, and each white space unit in it is a
    single U+0020 followed by a unit that is not white space. *)
Theorem sanitize_whitespace_normal (s : jsstring) :
  (starts_ws (A.sanitize s) = false
   /\ is_ws (last (A.sanitize s) 0) = false
   /\ collapsed (A.sanitize s) = true)
  /\ (starts_ws (B.sanitize s) = false
      /\ is_ws (last (B.sanitize s) 0) = false
      /\ collapsed (B.sanitize s) = true).
Proof.
  split; (split; [|split]).
  - apply starts_ws_trim_end, starts_ws_trim_start.
  - apply last_trim_end.
  - apply collapsed_trim, collapsed_collapse_ws.
  - apply starts_ws_trim_end, starts_ws_trim_start.
  - apply last_trim_end.
  - apply collapsed_trim, collapsed_collapse_ws.
Qed.

Lemma strip_angle_clears s : Forall (fun c => angle_bracket c = false) (strip_angle s).
Proof.
  unfold strip_angle. induction s as [|c t IH]; simpl; [constructor|].
  destruct (angle_bracket c) eqn:E; simpl; [assumption | constructor; assumption].
Qed.

Lemma angle_bracket_false c : angle_bracket c = false <-> c <> 60 /\ c <> 62.
Proof. unfold angle_bracket. zprop. tauto. Qed.

(** X2.  The sanitized text of the first revision holds neither [<] nor [>],
    whatever the input. *)
Theorem sanitize_no_angle_brackets_A (s : jsstring) :
  ~ In 60 (A.sanitize s) /\ ~ In 62 (A.sanitize s).
Proof.
  assert (H : Forall (fun c => angle_bracket c = false) (A.sanitize s)).
  { unfold A.sanitize, A.stripEmojis.
    apply trim_keeps, collapse_ws_keeps; [reflexivity|].
    apply trim_keeps, strip_angle_clears. }
  rewrite Forall_forall in H.
  split; intros Hin; apply H in Hin; discriminate Hin.
Qed.

Lemma length_replace_u p (s : jsstring) : (length (replace_u p s) <= length s)%nat.
Proof.
  induction s as [| c | c l t IHt IHlt] using jsstring_ind2.
  - apply le_n.
  - simpl. destruct (p c); simpl; lia.
  - change (replace_u p (c :: l :: t))
      with (if is_lead c && is_trail l
            then if p (pair_cp c l) then replace_u p t else c :: l :: replace_u p t
            else if p c then replace_u p (l :: t) else c :: replace_u p (l :: t)).
    destruct (is_lead c && is_trail l).
    + destruct (p (pair_cp c l)); simpl in *; lia.
    + destruct (p c); simpl in *; lia.
Qed.

Lemma length_trim_start s : (length (trim_start s) <= length s)%nat.
Proof. induction s as [|c t IH]; simpl; [lia|]. destruct (is_ws c); simpl; lia. Qed.

Lemma length_trim_end s : (length (trim_end s) <= length s)%nat.
Proof.
  induction s as [|c t IH]; simpl; [lia|].
  destruct (trim_end t); [destruct (is_ws c)|]; simpl in *; lia.
Qed.

Lemma length_trim s : (length (trim s) <= length s)%nat.
Proof.
  unfold trim. pose proof (length_trim_end (trim_start s)).
  pose proof (length_trim_start s). lia.
Qed.

Lemma length_collapse_ws s : (length (collapse_ws s) <= length s)%nat.
Proof.
  induction s as [|c t IH]; simpl; [lia|].
  destruct (is_ws c); [destruct (starts_ws t)|]; simpl; lia.
Qed.

Lemma length_strip_angle s : (length (strip_angle s) <= length s)%nat.
Proof. apply filter_length_le. Qed.

(** X3.  Sanitizing never makes a text longer, in code units. *)
Theorem sanitize_never_longer (s : jsstring) :
  (length (A.sanitize s) <= length s)%nat
  /\ (length (B.sanitize s) <= length s)%nat.
Proof.
  unfold A.sanitize, A.stripEmojis, B.sanitize, B.stripEmojis. split.
  - repeat match goal with
           | |- (length (trim ?x) <= _)%nat =>
               apply (Nat.le_trans _ _ _ (length_trim x))
           | |- (length (collapse_ws ?x) <= _)%nat =>
               apply (Nat.le_trans _ _ _ (length_collapse_ws x))
           | |- (length (strip_angle ?x) <= _)%nat =>
               apply (Nat.le_trans _ _ _ (length_strip_angle x))
           | |- (length (replace_u ?p ?x) <= _)%nat =>
               apply (Nat.le_trans _ _ _ (length_replace_u p x))
           end.
    apply le_n.
  - repeat match goal with
           | |- (length (trim ?x) <= _)%nat =>
               apply (Nat.le_trans _ _ _ (length_trim x))
           | |- (length (collapse_ws ?x) <= _)%nat =>
               apply (Nat.le_trans _ _ _ (length_collapse_ws x))
           | |- (length (replace_u ?p ?x) <= _)%nat =>
               apply (Nat.le_trans _ _ _ (length_replace_u p x))
           end.
    apply le_n.
Qed.

Lemma strip_angle_id s :
  Forall (fun c => angle_bracket c = false) s -> strip_angle s = s.
Proof.
  unfold strip_angle. induction 1 as [|c t Hc Ht IH]; simpl; [reflexivity|].
  rewrite Hc. simpl. rewrite IH. reflexivity.
Qed.

Lemma no_angle_units s :
  ~ In 60 s -> ~ In 62 s -> Forall (fun c => angle_bracket c = false) s.
Proof.
  intros H60 H62. apply Forall_forall. intros c Hc. apply angle_bracket_false.
  split; intros ->; contradiction.
Qed.

Lemma sanitize_same_without_angle s :
  Forall (fun c => angle_bracket c = false) s -> A.sanitize s = B.sanitize s.
Proof.
  intros H. unfold A.sanitize, A.stripEmojis, B.sanitize, B.stripEmojis.
  rewrite strip_angle_id; [reflexivity|].
  apply replace_u_keeps, replace_u_keeps, replace_u_keeps, trim_keeps, H.
Qed.

(** X4.  On a text that holds neither [<] nor [>] the two revisions of the
    sanitizer give the same result. *)
Theorem sanitize_revisions_agree (s : jsstring) :
  ~ In 60 s -> ~ In 62 s -> A.sanitize s = B.sanitize s.
Proof.
  intros H60 H62. apply sanitize_same_without_angle, no_angle_units; assumption.
Qed.

(** X6.  The sanitizer invents nothing: every code unit of the sanitized
    text is a code unit of the input or the space U+0020. *)
Theorem sanitize_units_from_input (s : jsstring) :
  Forall (fun c => In c s \/ c = 32) (A.sanitize s)
  /\ Forall (fun c => In c s \/ c = 32) (B.sanitize s).
Proof.
  assert (H : Forall (fun c => In c s \/ c = 32) s)
    by (apply Forall_forall; auto).
  unfold A.sanitize, A.stripEmojis, B.sanitize, B.stripEmojis.
  split; apply trim_keeps, collapse_ws_keeps; auto; apply trim_keeps.
  - apply filter_keeps, replace_u_keeps, replace_u_keeps, replace_u_keeps,
      trim_keeps, H.
  - apply replace_u_keeps, replace_u_keeps, replace_u_keeps, trim_keeps, H.
Qed.

(** ** The sanitizer on well-formed strings *)

Lemma wf_isWellFormed Q s : wf_all Q s -> isWellFormed s = true.
Proof.
  induction 1.
  - reflexivity.
  - simpl. rewrite H. assumption.
  - change (isWellFormed (h :: l :: t))
      with (if is_bmp_scalar h then isWellFormed (l :: t)
            else is_lead h && is_trail l && isWellFormed t).
    rewrite (lead_not_bmp h) by assumption.
    rewrite H, H0, IHwf_all. reflexivity.
Qed.

(** X7.  Sanitizing a text without unpaired surrogates gives a text without
    unpaired surrogates. *)
Theorem sanitize_keeps_well_formed (s : jsstring) :
  isWellFormed s = true ->
  isWellFormed (A.sanitize s) = true /\ isWellFormed (B.sanitize s) = true.
Proof.
  intros H. split.
  - eapply wf_isWellFormed. apply (sanitize_shape_A s H).
  - eapply wf_isWellFormed. apply (sanitize_shape_B s H).
Qed.

Lemma wf_all_of_code_points (Q : Z -> Prop) s :
  wf_all (fun _ => True) s -> Forall Q (code_points s) -> wf_all Q s.
Proof.
  induction 1; intros HF.
  - apply wf_nil.
  - rewrite code_points_unit in HF by (apply bmp_not_lead; assumption).
    inversion HF; subst. apply wf_unit; auto.
  - rewrite code_points_pair in HF by assumption.
    inversion HF; subst. apply wf_pair; auto.
Qed.

(** X5.  A text that needs no cleaning passes unchanged: if it has no
    unpaired surrogate, no code point of the three classes, no white space
    at either end and only single spaces as white space, the second revision
    returns it as it is, and so does the first when the text has no angle
    bracket. *)
Theorem sanitize_clean_text_unchanged (s : jsstring) :
  isWellFormed s = true ->
  Forall (fun cp => emoji_wide cp = false /\ emoji_misc cp = false
                    /\ variation_selector cp = false) (code_points s) ->
  starts_ws s = false -> is_ws (last s 0) = false -> collapsed s = true ->
  B.sanitize s = s
  /\ (~ In 60 s -> ~ In 62 s -> A.sanitize s = s).
Proof.
  intros Hwf Hcp Hs He Hc.
  assert (HB : B.sanitize s = s).
  { assert (Ht : trim s = s)
      by (unfold trim; rewrite (trim_start_fix s Hs); apply trim_end_fix, He).
    apply isWellFormed_wf in Hwf.
    pose proof (wf_all_of_code_points _ s Hwf Hcp) as HQ.
    unfold B.sanitize, B.stripEmojis. rewrite Ht.
    rewrite (replace_u_fix emoji_wide)
      by (eapply wf_all_impl; [|exact HQ]; simpl; tauto).
    rewrite (replace_u_fix emoji_misc)
      by (eapply wf_all_impl; [|exact HQ]; simpl; tauto).
    rewrite (replace_u_fix variation_selector)
      by (eapply wf_all_impl; [|exact HQ]; simpl; tauto).
    rewrite Ht, (collapsed_fix s Hc). exact Ht. }
  split; [exact HB|].
  intros H60 H62.
  rewrite (sanitize_same_without_angle s (no_angle_units s H60 H62)). exact HB.
Qed.

Lemma filter_and {T : Type} (f g : T -> bool) (l : list T) :
  filter f (filter g l) = filter (fun x => g x && f x) l.
Proof.
  induction l as [|x l IH]; simpl; [reflexivity|].
  destruct (g x); simpl; [destruct (f x)|]; rewrite IH; reflexivity.
Qed.

Lemma code_points_replace_u (Q : Z -> Prop) p s :
  wf_all Q s ->
  code_points (replace_u p s) = filter (fun c => negb (p c)) (code_points s).
Proof.
  induction 1.
  - reflexivity.
  - rewrite replace_u_unit, (code_points_unit c t)
      by (apply bmp_not_lead; assumption).
    cbn [filter]. destruct (p c); cbn [negb]; [assumption|].
    rewrite code_points_unit by (apply bmp_not_lead; assumption). congruence.
  - rewrite replace_u_pair, (code_points_pair h l t) by assumption.
    cbn [filter]. destruct (p (pair_cp h l)); cbn [negb]; [assumption|].
    rewrite code_points_pair by assumption. congruence.
Qed.

Lemma code_points_strip_angle (Q : Z -> Prop) s :
  wf_all Q s ->
  code_points (strip_angle s)
  = filter (fun c => negb (angle_bracket c)) (code_points s).
Proof.
  induction 1.
  - reflexivity.
  - rewrite (code_points_unit c t) by (apply bmp_not_lead; assumption).
    unfold strip_angle in *. cbn [filter].
    destruct (angle_bracket c); cbn [negb]; [assumption|].
    rewrite code_points_unit by (apply bmp_not_lead; assumption). congruence.
  - rewrite strip_angle_pair, !code_points_pair by assumption.
    cbn [filter]. rewrite astral_not_angle by assumption. cbn [negb]. congruence.
Qed.

Lemma visible_trim_start (Q : Z -> Prop) s :
  wf_all Q s ->
  filter (fun c => negb (is_ws c)) (code_points (trim_start s))
  = filter (fun c => negb (is_ws c)) (code_points s).
Proof.
  induction 1.
  - reflexivity.
  - cbn [trim_start]. destruct (is_ws c) eqn:W; [|reflexivity].
    rewrite (code_points_unit c t) by (apply bmp_not_lead; assumption).
    cbn [filter]. rewrite W. cbn [negb]. assumption.
  - cbn [trim_start]. rewrite (lead_not_ws h) by assumption. reflexivity.
Qed.

Lemma visible_trim_end (Q : Z -> Prop) s :
  wf_all Q s ->
  filter (fun c => negb (is_ws c)) (code_points (trim_end s))
  = filter (fun c => negb (is_ws c)) (code_points s).
Proof.
  induction 1.
  - reflexivity.
  - rewrite (code_points_unit c t) by (apply bmp_not_lead; assumption).
    cbn [trim_end]. destruct (trim_end t) as [|z r] eqn:E.
    + cbn [filter]. rewrite <- IHwf_all.
      destruct (is_ws c) eqn:W; cbn [code_points filter]; rewrite ?W; reflexivity.
    + rewrite code_points_unit by (apply bmp_not_lead; assumption).
      cbn [filter]. rewrite IHwf_all. reflexivity.
  - rewrite !trim_end_keep by auto using lead_not_ws, trail_not_ws.
    rewrite !code_points_pair by assumption. cbn [filter].
    rewrite IHwf_all. reflexivity.
Qed.

Lemma visible_trim (Q : Z -> Prop) s :
  wf_all Q s ->
  filter (fun c => negb (is_ws c)) (code_points (trim s))
  = filter (fun c => negb (is_ws c)) (code_points s).
Proof.
  intros H. unfold trim.
  rewrite (visible_trim_end Q) by (apply wf_all_trim_start, H).
  apply (visible_trim_start Q), H.
Qed.

Lemma visible_collapse_ws (Q : Z -> Prop) s :
  wf_all Q s ->
  filter (fun c => negb (is_ws c)) (code_points (collapse_ws s))
  = filter (fun c => negb (is_ws c)) (code_points s).
Proof.
  induction 1.
  - reflexivity.
  - rewrite (code_points_unit c t) by (apply bmp_not_lead; assumption).
    cbn [collapse_ws filter]. destruct (is_ws c) eqn:W; cbn [negb].
    + destruct (starts_ws t); [assumption|].
      rewrite code_points_unit by reflexivity. cbn [filter].
      change (is_ws 32) with true. cbn [negb]. assumption.
    + rewrite code_points_unit by (apply bmp_not_lead; assumption).
      cbn [filter]. rewrite W. cbn [negb]. congruence.
  - rewrite !collapse_ws_keep by auto using lead_not_ws, trail_not_ws.
    rewrite !code_points_pair by assumption. cbn [filter].
    rewrite IHwf_all. reflexivity.
Qed.

(** X8.  On a text without unpaired surrogates the sanitizer removes nothing
    else than it is meant to: the code points of the sanitized text that are
    not white space are, in order, the code points of the input that are
    neither white space nor in one of the three classes (nor, in the first
    revision, an angle bracket). *)
Theorem sanitize_keeps_other_code_points (s : jsstring) :
  isWellFormed s = true ->
  filter (fun c => negb (is_ws c)) (code_points (A.sanitize s))
  = filter (fun c => negb (is_ws c) && negb (emoji_wide c) && negb (emoji_misc c)
                     && negb (variation_selector c) && negb (angle_bracket c))
      (code_points s)
  /\ filter (fun c => negb (is_ws c)) (code_points (B.sanitize s))
     = filter (fun c => negb (is_ws c) && negb (emoji_wide c) && negb (emoji_misc c)
                        && negb (variation_selector c))
         (code_points s).
Proof.
  intros H. apply isWellFormed_wf in H.
  pose proof (wf_all_trim _ s H) as H0.
  pose proof (wf_all_replace_u _ emoji_wide _ H0) as H1.
  pose proof (wf_all_replace_u _ emoji_misc _ H1) as H2.
  pose proof (wf_all_replace_u _ variation_selector _ H2) as H3.
  split.
  - pose proof (wf_all_strip_angle _ _ H3) as H4.
    pose proof (wf_all_trim _ _ H4) as H5.
    pose proof (wf_all_collapse_ws _ _ (conj (conj (conj (conj I eq_refl) eq_refl) eq_refl) eq_refl) H5) as H6.
    unfold A.sanitize, A.stripEmojis.
    rewrite (visible_trim _ _ H6), (visible_collapse_ws _ _ H5), (visible_trim _ _ H4).
    rewrite (code_points_strip_angle _ _ H3), (code_points_replace_u _ _ _ H2),
      (code_points_replace_u _ _ _ H1), (code_points_replace_u _ _ _ H0).
    transitivity
      (filter (fun c => negb (emoji_wide c) && negb (emoji_misc c)
                        && negb (variation_selector c) && negb (angle_bracket c))
         (filter (fun c => negb (is_ws c)) (code_points (trim s)))).
    + rewrite !filter_and. apply filter_ext. intros c.
      destruct (is_ws c), (emoji_wide c), (emoji_misc c), (variation_selector c),
        (angle_bracket c); reflexivity.
    + rewrite (visible_trim _ _ H), filter_and. apply filter_ext. intros c.
      destruct (is_ws c), (emoji_wide c), (emoji_misc c), (variation_selector c),
        (angle_bracket c); reflexivity.
  - pose proof (wf_all_trim _ _ H3) as H5.
    pose proof (wf_all_collapse_ws _ _ (conj (conj (conj I eq_refl) eq_refl) eq_refl) H5) as H6.
    unfold B.sanitize, B.stripEmojis.
    rewrite (visible_trim _ _ H6), (visible_collapse_ws _ _ H5), (visible_trim _ _ H3).
    rewrite (code_points_replace_u _ _ _ H2),
      (code_points_replace_u _ _ _ H1), (code_points_replace_u _ _ _ H0).
    transitivity
      (filter (fun c => negb (emoji_wide c) && negb (emoji_misc c)
                        && negb (variation_selector c))
         (filter (fun c => negb (is_ws c)) (code_points (trim s)))).
    + rewrite !filter_and. apply filter_ext. intros c.
      destruct (is_ws c), (emoji_wide c), (emoji_misc c), (variation_selector c);
        reflexivity.
    + rewrite (visible_trim _ _ H), filter_and. apply filter_ext. intros c.
      destruct (is_ws c), (emoji_wide c), (emoji_misc c), (variation_selector c);
        reflexivity.
Qed.


(** ** Where the sanitizer is idempotent, on any string *)

Lemma replace_u_id p (s : jsstring) :
  Forall (fun cp => p cp = false) (code_points s) -> replace_u p s = s.
Proof.
  induction s as [| c | c l t IHt IHlt] using jsstring_ind2; intros H.
  - reflexivity.
  - simpl in *. inversion H as [|? ? Hc _]; subst. rewrite Hc. reflexivity.
  - change (replace_u p (c :: l :: t))
      with (if is_lead c && is_trail l
            then if p (pair_cp c l) then replace_u p t else c :: l :: replace_u p t
            else if p c then replace_u p (l :: t) else c :: replace_u p (l :: t)).
    change (code_points (c :: l :: t))
      with (if is_lead c && is_trail l then pair_cp c l :: code_points t
            else c :: code_points (l :: t)) in H.
    destruct (is_lead c && is_trail l);
      inversion H as [|? ? Hc Ht]; subst; rewrite Hc.
    + rewrite (IHt Ht). reflexivity.
    + rewrite (IHlt Ht). reflexivity.
Qed.

Lemma replace_u_shorter p (s : jsstring) :
  Exists (fun cp => p cp = true) (code_points s) ->
  (length (replace_u p s) < length s)%nat.
Proof.
  induction s as [| c | c l t IHt IHlt] using jsstring_ind2; intros H.
  - inversion H.
  - simpl in *. inversion H as [? ? Hc|? ? Hn]; subst; [|inversion Hn].
    rewrite Hc. simpl. lia.
  - change (replace_u p (c :: l :: t))
      with (if is_lead c && is_trail l
            then if p (pair_cp c l) then replace_u p t else c :: l :: replace_u p t
            else if p c then replace_u p (l :: t) else c :: replace_u p (l :: t)).
    change (code_points (c :: l :: t))
      with (if is_lead c && is_trail l then pair_cp c l :: code_points t
            else c :: code_points (l :: t)) in H.
    pose proof (length_replace_u p t) as Lt.
    pose proof (length_replace_u p (l :: t)) as Llt.
    cbn [length] in *.
    destruct (is_lead c && is_trail l).
    + destruct (p (pair_cp c l)) eqn:E; cbn [length]; [lia|].
      inversion H as [? ? Hc|? ? Ht]; subst; [congruence|].
      specialize (IHt Ht). lia.
    + destruct (p c) eqn:E; cbn [length]; [lia|].
      inversion H as [? ? Hc|? ? Ht]; subst; [congruence|].
      specialize (IHlt Ht). cbn [length] in IHlt. lia.
Qed.

Lemma none_or_some (p : Z -> bool) (l : list Z) :
  Forall (fun cp => p cp = false) l \/ Exists (fun cp => p cp = true) l.
Proof.
  induction l as [|c t [IH|IH]].
  - left. constructor.
  - destruct (p c) eqn:E; [right; left; exact E | left; constructor; assumption].
  - right. right. exact IH.
Qed.

Lemma sanitize_angle_free_A s :
  Forall (fun c => angle_bracket c = false) (A.sanitize s).
Proof.
  unfold A.sanitize, A.stripEmojis.
  apply trim_keeps, collapse_ws_keeps; [reflexivity|].
  apply trim_keeps, strip_angle_clears.
Qed.

Lemma sanitize_collapsed s :
  collapsed (A.sanitize s) = true /\ collapsed (B.sanitize s) = true.
Proof. split; apply collapsed_trim, collapsed_collapse_ws. Qed.

(** A second run of the sanitizer starts from the first replacement. *)
Lemma sanitize_again_shorter s :
  (Exists (fun cp => emoji_wide cp = true) (code_points (A.sanitize s)) ->
   length (A.sanitize (A.sanitize s)) < length (A.sanitize s))%nat
  /\ (Exists (fun cp => emoji_wide cp = true) (code_points (B.sanitize s)) ->
      length (B.sanitize (B.sanitize s)) < length (B.sanitize s))%nat.
Proof.
  split; intros H; apply replace_u_shorter in H.
  - unfold A.sanitize at 1. unfold A.stripEmojis. rewrite sanitize_trimmed_A.
    repeat match goal with
           | |- (length (trim ?x) < _)%nat =>
               apply (Nat.le_lt_trans _ _ _ (length_trim x))
           | |- (length (collapse_ws ?x) < _)%nat =>
               apply (Nat.le_lt_trans _ _ _ (length_collapse_ws x))
           | |- (length (strip_angle ?x) < _)%nat =>
               apply (Nat.le_lt_trans _ _ _ (length_strip_angle x))
           | |- (length (replace_u variation_selector ?x) < _)%nat =>
               apply (Nat.le_lt_trans _ _ _ (length_replace_u _ x))
           | |- (length (replace_u emoji_misc ?x) < _)%nat =>
               apply (Nat.le_lt_trans _ _ _ (length_replace_u _ x))
           end.
    exact H.
  - unfold B.sanitize at 1. unfold B.stripEmojis. rewrite sanitize_trimmed_B.
    repeat match goal with
           | |- (length (trim ?x) < _)%nat =>
               apply (Nat.le_lt_trans _ _ _ (length_trim x))
           | |- (length (collapse_ws ?x) < _)%nat =>
               apply (Nat.le_lt_trans _ _ _ (length_collapse_ws x))
           | |- (length (replace_u variation_selector ?x) < _)%nat =>
               apply (Nat.le_lt_trans _ _ _ (length_replace_u _ x))
           | |- (length (replace_u emoji_misc ?x) < _)%nat =>
               apply (Nat.le_lt_trans _ _ _ (length_replace_u _ x))
           end.
    exact H.
Qed.

(** X22.  On any string, unpaired surrogates or not, a second run of the
    sanitizer changes the sanitized text exactly when that text still holds a
    code point of U+1F300..U+1FAFF; it then removes code units from it. *)
Theorem sanitize_idempotent_iff_no_pictograph (s : jsstring) :
  (A.sanitize (A.sanitize s) = A.sanitize s
   <-> Forall (fun cp => emoji_wide cp = false) (code_points (A.sanitize s)))
  /\ (B.sanitize (B.sanitize s) = B.sanitize s
      <-> Forall (fun cp => emoji_wide cp = false) (code_points (B.sanitize s)))
  /\ (A.sanitize (A.sanitize s) <> A.sanitize s ->
      length (A.sanitize (A.sanitize s)) < length (A.sanitize s))%nat
  /\ (B.sanitize (B.sanitize s) <> B.sanitize s ->
      length (B.sanitize (B.sanitize s)) < length (B.sanitize s))%nat.
Proof.
  destruct (sanitize_bmp_classes s) as [HA HB].
  destruct (sanitize_collapsed s) as [CA CB].
  destruct (sanitize_again_shorter s) as [SA SB].
  assert (FA : Forall (fun cp => emoji_wide cp = false) (code_points (A.sanitize s)) ->
               A.sanitize (A.sanitize s) = A.sanitize s).
  { intros H. unfold A.sanitize at 1. unfold A.stripEmojis.
    rewrite sanitize_trimmed_A, (replace_u_id emoji_wide _ H).
    rewrite (replace_u_id emoji_misc)
      by (eapply Forall_impl; [|exact HA]; simpl; tauto).
    rewrite (replace_u_id variation_selector)
      by (eapply Forall_impl; [|exact HA]; simpl; tauto).
    rewrite (strip_angle_id _ (sanitize_angle_free_A s)).
    rewrite sanitize_trimmed_A, (collapsed_fix _ CA). apply sanitize_trimmed_A. }
  assert (FB : Forall (fun cp => emoji_wide cp = false) (code_points (B.sanitize s)) ->
               B.sanitize (B.sanitize s) = B.sanitize s).
  { intros H. unfold B.sanitize at 1. unfold B.stripEmojis.
    rewrite sanitize_trimmed_B, (replace_u_id emoji_wide _ H).
    rewrite (replace_u_id emoji_misc)
      by (eapply Forall_impl; [|exact HB]; simpl; tauto).
    rewrite (replace_u_id variation_selector)
      by (eapply Forall_impl; [|exact HB]; simpl; tauto).
    rewrite sanitize_trimmed_B, (collapsed_fix _ CB). apply sanitize_trimmed_B. }
  repeat split.
  - intros E. destruct (none_or_some emoji_wide (code_points (A.sanitize s))) as [F|X];
      [exact F|]. apply SA in X. rewrite E in X. lia.
  - exact FA.
  - intros E. destruct (none_or_some emoji_wide (code_points (B.sanitize s))) as [F|X];
      [exact F|]. apply SB in X. rewrite E in X. lia.
  - exact FB.
  - intros N. destruct (none_or_some emoji_wide (code_points (A.sanitize s))) as [F|X];
      [contradiction (N (FA F)) | exact (SA X)].
  - intros N. destruct (none_or_some emoji_wide (code_points (B.sanitize s))) as [F|X];
      [contradiction (N (FB F)) | exact (SB X)].
Qed.
(** ** The base64 text of the audio *)

Lemma in_all_bytes a : 0 <= a < 256 -> In a all_bytes.
Proof.
  intros H. unfold all_bytes. rewrite <- (Z2Nat.id a) by lia.
  apply in_map, in_seq. lia.
Qed.

Lemma for_all_bytes (check : Z -> bool) :
  forallb check all_bytes = true -> forall a, 0 <= a < 256 -> check a = true.
Proof.
  intros H a Ha. rewrite forallb_forall in H. apply H, in_all_bytes, Ha.
Qed.

Lemma for_all_byte_pairs (check : Z -> Z -> bool) :
  forallb (fun a => forallb (check a) all_bytes) all_bytes = true ->
  forall a b, 0 <= a < 256 -> 0 <= b < 256 -> check a b = true.
Proof.
  intros H a b Ha Hb.
  apply (for_all_bytes (check a)); [|exact Hb].
  apply (for_all_bytes (fun a => forallb (check a) all_bytes) H a Ha).
Qed.

(** The sextets of a group of bytes, read back from their characters. *)
Lemma sextet_first a :
  0 <= a < 256 ->
  b64_index (b64_char (Z.shiftr a 2)) = Z.shiftr a 2
  /\ b64_char (Z.shiftr a 2) <> 61.
Proof.
  intros Ha.
  pose proof (for_all_bytes
    (fun a => (b64_index (b64_char (Z.shiftr a 2)) =? Z.shiftr a 2)
              && negb (b64_char (Z.shiftr a 2) =? 61))) as H.
  specialize (H ltac:(vm_compute; reflexivity) a Ha). zprop. tauto.
Qed.

Lemma sextet_last c :
  0 <= c < 256 ->
  b64_index (b64_char (Z.land c 63)) = Z.land c 63
  /\ b64_char (Z.land c 63) <> 61
  /\ Z.lor (Z.shiftl (Z.shiftr c 6) 6) (Z.land c 63) = c
  /\ Z.lor (Z.shiftl (Z.shiftr c 4) 4) (Z.land c 15) = c.
Proof.
  intros Hc.
  pose proof (for_all_bytes
    (fun c => (b64_index (b64_char (Z.land c 63)) =? Z.land c 63)
              && negb (b64_char (Z.land c 63) =? 61)
              && (Z.lor (Z.shiftl (Z.shiftr c 6) 6) (Z.land c 63) =? c)
              && (Z.lor (Z.shiftl (Z.shiftr c 4) 4) (Z.land c 15) =? c))) as H.
  specialize (H ltac:(vm_compute; reflexivity) c Hc). zprop. tauto.
Qed.

Lemma sextet_second a b :
  0 <= a < 256 -> 0 <= b < 256 ->
  let n := Z.lor (Z.shiftl (Z.land a 3) 4) (Z.shiftr b 4) in
  b64_index (b64_char n) = n
  /\ b64_char n <> 61
  /\ Z.lor (Z.shiftl (Z.shiftr a 2) 2) (Z.shiftr n 4) = a
  /\ Z.land n 15 = Z.shiftr b 4.
Proof.
  intros Ha Hb n.
  pose proof (for_all_byte_pairs
    (fun a b =>
       let n := Z.lor (Z.shiftl (Z.land a 3) 4) (Z.shiftr b 4) in
       (b64_index (b64_char n) =? n)
       && negb (b64_char n =? 61)
       && (Z.lor (Z.shiftl (Z.shiftr a 2) 2) (Z.shiftr n 4) =? a)
       && (Z.land n 15 =? Z.shiftr b 4))) as H.
  specialize (H ltac:(vm_compute; reflexivity) a b Ha Hb).
  cbv zeta in H. fold n in H. zprop. tauto.
Qed.

Lemma sextet_third b c :
  0 <= b < 256 -> 0 <= c < 256 ->
  let n := Z.lor (Z.shiftl (Z.land b 15) 2) (Z.shiftr c 6) in
  b64_index (b64_char n) = n
  /\ b64_char n <> 61
  /\ Z.shiftr n 2 = Z.land b 15
  /\ Z.land n 3 = Z.shiftr c 6.
Proof.
  intros Hb Hc n.
  pose proof (for_all_byte_pairs
    (fun b c =>
       let n := Z.lor (Z.shiftl (Z.land b 15) 2) (Z.shiftr c 6) in
       (b64_index (b64_char n) =? n)
       && negb (b64_char n =? 61)
       && (Z.shiftr n 2 =? Z.land b 15)
       && (Z.land n 3 =? Z.shiftr c 6))) as H.
  specialize (H ltac:(vm_compute; reflexivity) b c Hb Hc).
  cbv zeta in H. fold n in H. zprop. tauto.
Qed.

Lemma list_ind3 {T : Type} (P : list T -> Prop) :
  P [] -> (forall a, P [a]) -> (forall a b, P [a; b]) ->
  (forall a b c t, P t -> P (a :: b :: c :: t)) ->
  forall l, P l.
Proof.
  intros H0 H1 H2 H3 l.
  assert (G : P l /\ (forall a, P (a :: l)) /\ forall a b, P (a :: b :: l)).
  { induction l as [|x l (IH0 & IH1 & IH2)]; repeat split; auto. }
  apply G.
Qed.

Lemma base64_group a b c t :
  base64 (a :: b :: c :: t)
  = b64_char (Z.shiftr a 2)
    :: b64_char (Z.lor (Z.shiftl (Z.land a 3) 4) (Z.shiftr b 4))
    :: b64_char (Z.lor (Z.shiftl (Z.land b 15) 2) (Z.shiftr c 6))
    :: b64_char (Z.land c 63) :: base64 t.
Proof. reflexivity. Qed.

Lemma base64_one a :
  base64 [a]
  = [b64_char (Z.shiftr a 2); b64_char (Z.shiftl (Z.land a 3) 4); 61; 61].
Proof. reflexivity. Qed.

Lemma base64_two a b :
  base64 [a; b]
  = [b64_char (Z.shiftr a 2);
     b64_char (Z.lor (Z.shiftl (Z.land a 3) 4) (Z.shiftr b 4));
     b64_char (Z.shiftl (Z.land b 15) 2); 61].
Proof. reflexivity. Qed.

Lemma base64_decode_encode (bs : list Z) :
  Forall (fun b => 0 <= b < 256) bs -> base64_decode (base64 bs) = bs.
Proof.
  induction bs as [| a | a b | a b c t IH] using list_ind3; intros H.
  - reflexivity.
  - inversion H as [|? ? Ha _]; subst.
    destruct (sextet_first a Ha) as [E1 _].
    destruct (sextet_second a 0 Ha ltac:(lia)) as (E2 & _ & E3 & _).
    change (Z.shiftr 0 4) with 0 in E2, E3. rewrite Z.lor_0_r in E2, E3.
    rewrite base64_one. cbn [base64_decode]. change (61 =? 61) with true. cbv iota.
    rewrite E1, E2, E3. reflexivity.
  - inversion H as [|? ? Ha H']; subst. inversion H' as [|? ? Hb _]; subst.
    destruct (sextet_first a Ha) as [E1 _].
    destruct (sextet_second a b Ha Hb) as (E2 & _ & E3 & E4).
    destruct (sextet_third b 0 Hb ltac:(lia)) as (E5 & N5 & E6 & _).
    destruct (sextet_last b Hb) as (_ & _ & _ & E7).
    change (Z.shiftr 0 6) with 0 in E5, N5, E6. rewrite Z.lor_0_r in E5, N5, E6.
    cbv zeta in *. rewrite base64_two. cbn [base64_decode].
    apply Z.eqb_neq in N5. rewrite N5. change (61 =? 61) with true. cbv iota.
    rewrite E1, E2, E3, E4, E5, E6, E7. reflexivity.
  - inversion H as [|? ? Ha H']; subst. inversion H' as [|? ? Hb H'']; subst.
    inversion H'' as [|? ? Hc Ht]; subst.
    destruct (sextet_first a Ha) as [E1 _].
    destruct (sextet_second a b Ha Hb) as (E2 & _ & E3 & E4).
    destruct (sextet_third b c Hb Hc) as (E5 & N5 & E6 & E8).
    destruct (sextet_last b Hb) as (_ & _ & _ & E7).
    destruct (sextet_last c Hc) as (E9 & N9 & E10 & _).
    cbv zeta in *. rewrite base64_group. cbn [base64_decode].
    apply Z.eqb_neq in N5, N9. rewrite N5, N9. cbv iota.
    rewrite E1, E2, E3, E4, E5, E6, E7, E8, E9, E10, (IH Ht). reflexivity.
Qed.

(** X18.  The base64 text determines the audio: two byte sequences with the
    same base64 text are equal, since decoding the text by groups of four
    characters gives the bytes back. *)
Theorem base64_injective (bs1 bs2 : list Z) :
  Forall (fun b => 0 <= b < 256) bs1 ->
  Forall (fun b => 0 <= b < 256) bs2 ->
  base64 bs1 = base64 bs2 -> bs1 = bs2.
Proof.
  intros H1 H2 E.
  rewrite <- (base64_decode_encode bs1 H1), <- (base64_decode_encode bs2 H2), E.
  reflexivity.
Qed.

Lemma b64_char_alphabet n :
  0 <= n ->
  let c := b64_char n in
  65 <= c <= 90 \/ 97 <= c <= 122 \/ 48 <= c <= 57 \/ c = 43 \/ c = 47.
Proof.
  intros Hn c. subst c. unfold b64_char.
  destruct (Z.ltb_spec n 26); [lia|].
  destruct (Z.ltb_spec n 52); [lia|].
  destruct (Z.ltb_spec n 62); [lia|].
  destruct (Z.eqb_spec n 62); lia.
Qed.

Ltac nonneg :=
  repeat first [ apply Z.shiftr_nonneg | apply Z.shiftl_nonneg
               | apply Z.lor_nonneg; split | apply Z.land_nonneg; lia | lia ].

(** X19.  The base64 text of [n] bytes has [4 * ceil(n / 3)] characters, all
    of them letters, digits, [+], [/] or the padding [=]. *)
Theorem base64_shape (bs : list Z) :
  Forall (fun b => 0 <= b < 256) bs ->
  length (base64 bs) = (4 * ((length bs + 2) / 3))%nat
  /\ Forall (fun c => 65 <= c <= 90 \/ 97 <= c <= 122 \/ 48 <= c <= 57
                      \/ c = 43 \/ c = 47 \/ c = 61) (base64 bs).
Proof.
  assert (A : forall n, 0 <= n ->
            65 <= b64_char n <= 90 \/ 97 <= b64_char n <= 122
            \/ 48 <= b64_char n <= 57 \/ b64_char n = 43 \/ b64_char n = 47
            \/ b64_char n = 61).
  { intros n Hn. pose proof (b64_char_alphabet n Hn) as H. cbv zeta in H. tauto. }
  assert (P : 65 <= 61 <= 90 \/ 97 <= 61 <= 122 \/ 48 <= 61 <= 57
              \/ 61 = 43 \/ 61 = 47 \/ 61 = 61) by tauto.
  induction bs as [| a | a b | a b c t IH] using list_ind3; intros H.
  - split; [reflexivity | constructor].
  - inversion H as [|? ? Ha _]; subst. split; [reflexivity|].
    rewrite base64_one.
    repeat (apply Forall_cons); try apply Forall_nil; try exact P; apply A; nonneg.
  - inversion H as [|? ? Ha H']; subst. inversion H' as [|? ? Hb _]; subst.
    split; [reflexivity|].
    rewrite base64_two.
    repeat (apply Forall_cons); try apply Forall_nil; try exact P; apply A; nonneg.
  - inversion H as [|? ? Ha H']; subst. inversion H' as [|? ? Hb H'']; subst.
    inversion H'' as [|? ? Hc Ht]; subst.
    destruct (IH Ht) as [IHl IHf]. split.
    + rewrite base64_group. cbn [length]. rewrite IHl.
      replace (S (S (S (length t))) + 2)%nat with (length t + 2 + 1 * 3)%nat by lia.
      rewrite Nat.div_add by lia. lia.
    + rewrite base64_group.
      repeat (apply Forall_cons); try exact IHf; apply A; nonneg.
Qed.

(** ** Instances of the further properties *)

Lemma not_in_by_check (x : Z) (s : jsstring) :
  forallb (fun c => negb (c =? x)) s = true -> ~ In x s.
Proof.
  intros H Hin. rewrite forallb_forall in H. apply H in Hin.
  rewrite Z.eqb_refl in Hin. discriminate Hin.
Qed.

Lemma classes_free_by_check (l : list Z) :
  forallb (fun cp => negb (emoji_wide cp || emoji_misc cp || variation_selector cp)) l
  = true ->
  Forall (fun cp => emoji_wide cp = false /\ emoji_misc cp = false
                    /\ variation_selector cp = false) l.
Proof.
  intros H. apply Forall_forall. intros cp Hin.
  rewrite forallb_forall in H. apply H in Hin.
  destruct (emoji_wide cp), (emoji_misc cp), (variation_selector cp);
    try discriminate Hin; auto.
Qed.

Lemma sanitize_revisions_agree_witness :
  A.sanitize (str " ciao  mondo ") = B.sanitize (str " ciao  mondo ").
Proof.
  apply (sanitize_revisions_agree (str " ciao  mondo "));
    apply not_in_by_check; reflexivity.
Defined.

Lemma sanitize_keeps_well_formed_witness :
  isWellFormed (str "ciao " ++ [0xD83D; 0xDE00; 0xD83C; 0xDF0D]) = true
  /\ isWellFormed (A.sanitize (str "ciao " ++ [0xD83D; 0xDE00; 0xD83C; 0xDF0D])) = true
  /\ isWellFormed (B.sanitize (str "ciao " ++ [0xD83D; 0xDE00; 0xD83C; 0xDF0D])) = true.
Proof.
  split; [reflexivity|].
  apply (sanitize_keeps_well_formed (str "ciao " ++ [0xD83D; 0xDE00; 0xD83C; 0xDF0D])).
  reflexivity.
Defined.

Lemma sanitize_clean_text_unchanged_witness :
  B.sanitize (str "Che bella palla!") = str "Che bella palla!"
  /\ A.sanitize (str "Che bella palla!") = str "Che bella palla!".
Proof.
  assert (H : B.sanitize (str "Che bella palla!") = str "Che bella palla!"
              /\ (~ In 60 (str "Che bella palla!") ->
                  ~ In 62 (str "Che bella palla!") ->
                  A.sanitize (str "Che bella palla!") = str "Che bella palla!")).
  { apply (sanitize_clean_text_unchanged (str "Che bella palla!")).
    - reflexivity.
    - apply classes_free_by_check. reflexivity.
    - reflexivity.
    - reflexivity.
    - reflexivity. }
  split; [exact (proj1 H)|].
  apply (proj2 H); apply not_in_by_check; reflexivity.
Defined.

Lemma sanitize_keeps_other_code_points_witness :
  isWellFormed (str "a " ++ [0xD83D; 0xDE00; 0x1F1; 0xD834; 0xDD1E; 0x2600]) = true
  /\ filter (fun c => negb (is_ws c))
       (code_points (B.sanitize (str "a " ++ [0xD83D; 0xDE00; 0x1F1; 0xD834; 0xDD1E; 0x2600])))
     = filter (fun c => negb (is_ws c) && negb (emoji_wide c) && negb (emoji_misc c)
                        && negb (variation_selector c))
         (code_points (str "a " ++ [0xD83D; 0xDE00; 0x1F1; 0xD834; 0xDD1E; 0x2600])).
Proof.
  split; [reflexivity|].
  apply (sanitize_keeps_other_code_points
           (str "a " ++ [0xD83D; 0xDE00; 0x1F1; 0xD834; 0xDD1E; 0x2600])).
  reflexivity.
Defined.

Lemma health_probe_hides_credential_witness :
  run (B.handler mock_env {| method := str "GET"; body := None |}) scenario_world
  = ([], inr (B.reply_health mock_env))
  /\ B.reply_health {| OPENAI_API_KEY := Some (str "sk-other");
                       EMMA_TEXT_MODEL := None; EMMA_TTS_MODEL := None;
                       EMMA_VOICE := None |}
     = @B.reply_health jsstring mock_env.
Proof.
  pose proof (health_probe_hides_credential mock_env
                {| method := str "GET"; body := None |} scenario_world
                (Some (str "sk-other")) eq_refl eq_refl) as H.
  split; [exact (proj1 H) | exact (proj2 (proj2 (proj2 H)))].
Defined.

Lemma answers_have_status_and_error_witness :
  (@status jsstring (reply_ok scenario_text [1; 2]) = 200
   /\ prop (@payload jsstring (reply_ok scenario_text [1; 2])) (str "error") = None)
  \/ ((@status jsstring (reply_ok scenario_text [1; 2]) = 405
       \/ @status jsstring (reply_ok scenario_text [1; 2]) = 500)
      /\ exists msg,
           prop (@payload jsstring (reply_ok scenario_text [1; 2])) (str "error")
           = Some (JStr msg)).
Proof.
  apply (proj2 (answers_have_status_and_error mock_env (post scenario_body)
                  scenario_world)
           [B.generation_request mock_env scenario_sys_B scenario_body (JArr []);
            B.speech_request mock_env scenario_text]).
  vm_compute. reflexivity.
Defined.

Lemma calls_are_generation_then_synthesis_witness :
  [B.generation_request mock_env scenario_sys_B scenario_body (JArr []);
   B.speech_request mock_env scenario_text] = []
  \/ (exists g,
        [B.generation_request mock_env scenario_sys_B scenario_body (JArr []);
         B.speech_request mock_env scenario_text] = [g]
        /\ url g = responses_url)
  \/ (exists g s,
        [B.generation_request mock_env scenario_sys_B scenario_body (JArr []);
         B.speech_request mock_env scenario_text] = [g; s]
        /\ url g = responses_url /\ url s = speech_url).
Proof.
  apply (proj2 (calls_are_generation_then_synthesis mock_env (post scenario_body)
                  scenario_world)
           _ (inr (reply_ok scenario_text [1; 2]))).
  vm_compute. reflexivity.
Defined.

Lemma rejected_call_is_server_error_witness :
  (exists before,
     [B.generation_request mock_env scenario_sys_B scenario_body (JArr [])]
     = before
       ++ [B.generation_request mock_env scenario_sys_B scenario_body (JArr [])])
  /\ @inr js_error (http_response jsstring)
       (reply_details "Server error" (str "fetch failed"))
     = inr {| status := 500;
              payload := JObj [field "error" (JStr (str "Server error"));
                               field "details"
                                 (JStr (error_details (TypeError (str "fetch failed"))))] |}.
Proof.
  apply (proj2 (rejected_call_is_server_error mock_env (post scenario_body)
                  (mock_world (Rejected (TypeError (str "fetch failed")))
                              (canned true [] JNull [])))
           [B.generation_request mock_env scenario_sys_B scenario_body (JArr [])]).
  - vm_compute. reflexivity.
  - left. reflexivity.
  - reflexivity.
Defined.

Lemma unparsable_generation_is_server_error_witness :
  [B.generation_request mock_env scenario_sys_B scenario_body (JArr [])]
  = [B.generation_request mock_env scenario_sys_B scenario_body (JArr [])]
  /\ @inr js_error (http_response jsstring)
       (reply_details "Server error" (str "Unexpected token"))
     = inr (reply_details "Server error"
              (error_details {| err_name := str "SyntaxError";
                                err_message := str "Unexpected token" |})).
Proof.
  apply (proj2 (unparsable_generation_is_server_error mock_env (post scenario_body)
                  (mock_world
                     (Resolved {| ok := true; text := inr (str "<html>");
                                  json_body := inl {| err_name := str "SyntaxError";
                                                      err_message := str "Unexpected token" |};
                                  arrayBuffer := inr [] |})
                     (canned true [] JNull [])))
           _ _ _
           {| ok := true; text := inr (str "<html>");
              json_body := inl {| err_name := str "SyntaxError";
                                  err_message := str "Unexpected token" |};
              arrayBuffer := inr [] |}).
  - vm_compute. reflexivity.
  - left. reflexivity.
  - reflexivity.
  - reflexivity.
  - reflexivity.
  - reflexivity.
Defined.

Lemma last_events_not_an_array_witness :
  (exists rest,
     fst (run (B.handler mock_env (post (JObj [field "last_events" JNull])))
            scenario_world)
     = B.generation_request mock_env scenario_sys_B
         (body_or_empty (post (JObj [field "last_events" JNull]))) (JArr [])
       :: rest)
  /\ exists e,
       err_name e = str "TypeError"
       /\ run (A.handler mock_env (post (JObj [field "last_events" JNull])))
            scenario_world
          = ([], inr (reply_details "Server error" (error_details e))).
Proof.
  assert (HA : forall items : list (json jsstring),
            last_events_of (body_or_empty (post (JObj [field "last_events" JNull])))
            <> JArr items)
    by (intros items H; vm_compute in H; discriminate H).
  pose proof (last_events_not_an_array mock_env
                (post (JObj [field "last_events" JNull])) scenario_world
                eq_refl eq_refl HA) as H.
  split; [exact (proj1 H _ eq_refl)|].
  apply (proj2 (proj2 H)). intros s Hs. vm_compute in Hs. discriminate Hs.
Defined.

Lemma structured_output_fallback_witness :
  fst (run (A.handler mock_env (post scenario_body))
         (mock_world
            (canned true [] (JObj [field "output" (JArr [JStr (str "ciao")])]) [])
            (canned true [] JNull [1; 2])))
  = [A.generation_request mock_env scenario_sys_A
       (body_or_empty (post scenario_body)) (JArr []);
     A.speech_request mock_env
       (A.sanitize (JSON_stringify (JArr [JStr (str "ciao")])))].
Proof.
  refine (proj1 (structured_output_fallback mock_env (post scenario_body)
                   (mock_world
                      (canned true []
                         (JObj [field "output" (JArr [JStr (str "ciao")])]) [])
                      (canned true [] JNull [1; 2]))
                   {| ok := true; text := inr [];
                      json_body := inr (JObj [field "output" (JArr [JStr (str "ciao")])]);
                      arrayBuffer := inr [] |}
                   (JObj [field "output" (JArr [JStr (str "ciao")])])
                   [JStr (str "ciao")]
                   eq_refl eq_refl eq_refl eq_refl _ eq_refl)
            scenario_sys_A (JArr []) eq_refl eq_refl eq_refl).
  intros v H. vm_compute in H. discriminate H.
Defined.

Lemma synthesis_input_not_empty_B_witness :
  exists clean,
    clean <> [] /\ B.speech_request mock_env scenario_text
                   = B.speech_request mock_env clean.
Proof.
  apply (synthesis_input_not_empty_B mock_env (post scenario_body) scenario_world
           [B.generation_request mock_env scenario_sys_B scenario_body (JArr []);
            B.speech_request mock_env scenario_text]
           (inr (reply_ok scenario_text [1; 2]))).
  - vm_compute. reflexivity.
  - right. left. reflexivity.
  - reflexivity.
Defined.

Lemma generation_answer_not_an_object_witness :
  run (B.handler mock_env (post scenario_body))
    (mock_world (canned true [] (JStr (str "ciao")) []) (canned true [] JNull [1; 2]))
  = ([B.generation_request mock_env scenario_sys_B (body_or_empty (post scenario_body))
        (B.recent_events (last_events_of (body_or_empty (post scenario_body))))],
     inr (reply_error "Empty AI text output")).
Proof.
  refine (proj1 (generation_answer_not_an_object mock_env (post scenario_body)
                   (mock_world (canned true [] (JStr (str "ciao")) [])
                               (canned true [] JNull [1; 2]))
                   {| ok := true; text := inr []; json_body := inr (JStr (str "ciao"));
                      arrayBuffer := inr [] |}
                   (JStr (str "ciao")) eq_refl eq_refl eq_refl eq_refl _)
            scenario_sys_B eq_refl eq_refl).
  intros fields H. discriminate H.
Defined.

Lemma base64_injective_witness :
  Forall (fun b => 0 <= b < 256) [0; 255; 16] /\ [0; 255; 16] = [0; 255; 16].
Proof.
  assert (H : Forall (fun b => 0 <= b < 256) [0; 255; 16])
    by (repeat constructor; lia).
  split; [exact H|].
  apply (base64_injective [0; 255; 16] [0; 255; 16] H H). reflexivity.
Defined.

Lemma base64_shape_witness :
  Forall (fun b => 0 <= b < 256) [1; 2]
  /\ length (base64 [1; 2]) = (4 * ((length [1; 2] + 2) / 3))%nat.
Proof.
  assert (H : Forall (fun b => 0 <= b < 256) [1; 2]) by (repeat constructor; lia).
  split; [exact H|]. apply (base64_shape [1; 2] H).
Defined.

Lemma unrenderable_locale_is_server_error_witness :
  method (post (JObj [field "lang" (JObj [field "toString" (JNum (str "1"))])]))
  = str "POST"
  /\ configured (OPENAI_API_KEY mock_env) = true
  /\ run (A.handler mock_env
            (post (JObj [field "lang" (JObj [field "toString" (JNum (str "1"))])])))
       scenario_world
     = ([], inr {| status := 500;
                   payload :=
                     JObj [field "error" (JStr (str "Server error"));
                           field "details"
                             (JStr (str "Cannot convert object to primitive value"))] |}).
Proof.
  split; [reflexivity|]. split; [reflexivity|].
  exact (proj1 (proj2 (proj1 (proj2
           (unrenderable_locale_is_server_error mock_env
              (post (JObj [field "lang" (JObj [field "toString" (JNum (str "1"))])]))
              scenario_world eq_refl eq_refl))
           (TypeError (str "Cannot convert object to primitive value")) eq_refl))).
Defined.

Lemma unreadable_answer_is_server_error_witness :
  (exists before,
     [B.generation_request mock_env scenario_sys_B scenario_body (JArr []);
      B.speech_request mock_env (str "Che bella palla!")]
     = before ++ [B.speech_request mock_env (str "Che bella palla!")])
  /\ @inr js_error (http_response jsstring)
       (reply_details "Server error" (str "terminated"))
     = inr {| status := 500;
              payload := JObj [field "error" (JStr (str "Server error"));
                               field "details"
                                 (JStr (error_details (TypeError (str "terminated"))))] |}.
Proof.
  apply (proj2 (unreadable_answer_is_server_error mock_env (post scenario_body)
                  (mock_world
                     (canned true []
                        (JObj [field "output_text" (JStr (str "Che bella palla!"))]) [])
                     (unreadable false (TypeError (str "terminated")))))
           [B.generation_request mock_env scenario_sys_B scenario_body (JArr []);
            B.speech_request mock_env (str "Che bella palla!")]
           (inr (reply_details "Server error" (str "terminated")))
           (B.speech_request mock_env (str "Che bella palla!"))
           {| ok := false; text := inl (TypeError (str "terminated"));
              json_body := inl (TypeError (str "terminated"));
              arrayBuffer := inl (TypeError (str "terminated")) |}
           (TypeError (str "terminated"))).
  - vm_compute. reflexivity.
  - right. left. reflexivity.
  - reflexivity.
  - left. split; reflexivity.
Defined.
